(** * niri-wselector: matching, ranking and labelling of windows and workspaces

A shallow embedding of [niri_wselector/__main__.py].  Python dictionaries
with a fixed set of keys become records, [dict] used as a map becomes
[gmap], [set] becomes [gset], exceptions become the [result] monad, and
the calls to external programs become a trace of events. *)

From Stdlib Require Import ZArith String Ascii DecimalString List Bool Lia.
From stdpp Require Import base option gmap strings list sorting.
From Stdlib Require OrderedTypeEx.

Local Open Scope string_scope.
Local Open Scope Z_scope.

(** ** Python values, exceptions and comparisons *)

(** The JSON scalars that occur as values of the record fields and as
    literals of the match rules. *)
Inductive PyVal :=
| VNone
| VBool (b : bool)
| VInt (z : Z)
| VStr (s : string).

Inductive PyExc := KeyError | TypeError | IndexError | ValueError.

Inductive result (A : Type) :=
| Ok (a : A)
| Raise (e : PyExc).
Arguments Ok {A} a.
Arguments Raise {A} e.

#[global] Instance result_ret : MRet result := fun _ a => Ok a.
#[global] Instance result_bind : MBind result := fun _ _ f m =>
  match m with Ok a => f a | Raise e => Raise e end.
#[global] Instance result_fmap : FMap result := fun _ _ f m =>
  match m with Ok a => Ok (f a) | Raise e => Raise e end.

(** [bool] is a subclass of [int]: [True == 1] and [False < 1]. *)
Definition py_num (v : PyVal) : option Z :=
  match v with
  | VBool b => Some (Z.b2z b)
  | VInt z => Some z
  | _ => None
  end.

(** [a == b] *)
Definition py_eq (a b : PyVal) : bool :=
  match a, b with
  | VNone, VNone => true
  | VStr s, VStr t => String.eqb s t
  | _, _ =>
      match py_num a, py_num b with
      | Some x, Some y => x =? y
      | _, _ => false
      end
  end.

(** [a < b]: numbers with numbers, text with text (code point order, which
    is the byte order of the UTF-8 encoding); anything else, [None]
    included, is a [TypeError]. *)
Definition py_lt (a b : PyVal) : result bool :=
  match a, b with
  | VStr s, VStr t => Ok (String.ltb s t)
  | _, _ =>
      match py_num a, py_num b with
      | Some x, Some y => Ok (x <? y)
      | _, _ => Raise TypeError
      end
  end.

(** [u < v] on tuples: the first position whose items are not [==] decides,
    and only there is [<] evaluated. *)
Fixpoint tuple_lt (u v : list PyVal) : result bool :=
  match u, v with
  | x :: u', y :: v' => if py_eq x y then tuple_lt u' v' else py_lt x y
  | [], _ :: _ => Ok true
  | _, [] => Ok false
  end.

(** [str(z)] *)
Definition str (z : Z) : string := NilZero.string_of_int (Z.to_int z).

(** [x.get(key)] of an optional text field as a Python value. *)
Definition opt_val (o : option string) : PyVal :=
  match o with
  | Some s => VStr s
  | None => VNone
  end.

(** Truth value of an optional text: [None] and the empty text are false. *)
Definition truthy (o : option string) : option string :=
  match o with
  | Some s => if String.eqb s "" then None else Some s
  | None => None
  end.

(** [o or d] *)
Definition str_or (o : option string) (d : string) : string :=
  default d (truthy o).

(** [l[i]]: a negative index counts from the end. *)
Definition py_index {A} (l : list A) (i : Z) : result A :=
  let n := Z.of_nat (length l) in
  let j := if i <? 0 then i + n else i in
  if (j <? 0) || (n <=? j) then Raise IndexError
  else match l !! Z.to_nat j with
       | Some x => Ok x
       | None => Raise IndexError
       end.

(** ** [sorted(items, key=key)]

    The key function is called once per item, in order, before any
    comparison; the items are then ordered by a stable sort that only ever
    asks [key(later) < key(earlier)] and lets an exception of [<] escape.
    The sort is modelled by a stable insertion sort in the [result] monad. *)
Section Sorted.

Context {A : Type}.

Fixpoint insert_keyed (kx : list PyVal) (x : A) (l : list (list PyVal * A))
  : result (list (list PyVal * A)) :=
  match l with
  | [] => Ok [(kx, x)]
  | (ky, y) :: l' =>
      lt ← tuple_lt ky kx;
      if lt : bool then r ← insert_keyed kx x l'; mret ((ky, y) :: r)
      else mret ((kx, x) :: (ky, y) :: l')
  end.

Fixpoint sort_keyed (l : list (list PyVal * A)) : result (list (list PyVal * A)) :=
  match l with
  | [] => Ok []
  | (k, x) :: l' => s ← sort_keyed l'; insert_keyed k x s
  end.

Definition sorted (key : A → result (list PyVal)) (items : list A) : result (list A) :=
  keyed ← mapM (fun x => k ← key x; mret (k, x)) items;
  s ← sort_keyed keyed;
  mret (map snd s).

End Sorted.

(** ** Records of the compositor state *)

Module WindowEntryDict.

Record t := mk {
  id : Z;
  title : string;
  app_id : string;
  workspace_id : Z;
  is_focused : bool;
  is_floating : bool
}.

(** [w.get(key)] *)
Definition get (w : t) (key : string) : PyVal :=
  if String.eqb key "id" then VInt (id w)
  else if String.eqb key "title" then VStr (title w)
  else if String.eqb key "app_id" then VStr (app_id w)
  else if String.eqb key "workspace_id" then VInt (workspace_id w)
  else if String.eqb key "is_focused" then VBool (is_focused w)
  else if String.eqb key "is_floating" then VBool (is_floating w)
  else VNone.

End WindowEntryDict.

Module WorkspaceEntryDict.

Record t := mk {
  id : Z;
  idx : Z;
  name : option string;
  output : option string;
  is_active : bool;
  is_focused : bool;
  active_window_id : Z
}.

Definition get (w : t) (key : string) : PyVal :=
  if String.eqb key "id" then VInt (id w)
  else if String.eqb key "idx" then VInt (idx w)
  else if String.eqb key "name" then opt_val (name w)
  else if String.eqb key "output" then opt_val (output w)
  else if String.eqb key "is_active" then VBool (is_active w)
  else if String.eqb key "is_focused" then VBool (is_focused w)
  else if String.eqb key "active_window_id" then VInt (active_window_id w)
  else VNone.

End WorkspaceEntryDict.

Abbreviation Window := WindowEntryDict.t.
Abbreviation Workspace := WorkspaceEntryDict.t.

Module NiriState.

Record t := mk {
  windows : list Window;
  workspaces : list Workspace
}.

(** [next((w for w in self.windows if w["is_focused"]), None)] *)
Definition focused_window (self : t) : option Window :=
  List.find WindowEntryDict.is_focused (windows self).

Definition focused_workspace (self : t) : option Workspace :=
  List.find WorkspaceEntryDict.is_focused (workspaces self).

Definition active_workspaces (self : t) : list Workspace :=
  List.filter WorkspaceEntryDict.is_active (workspaces self).

Definition focused_output (self : t) : option string :=
  match focused_workspace self with
  | Some focused => WorkspaceEntryDict.output focused
  | None => None
  end.

End NiriState.

(** ** Match rules *)

Inductive Matcher :=
| DictKeyMatcher (key : string) (value : PyVal)
| DictKeyAnyMatcher (key : string) (values : list PyVal).

(** [rule.matches(item)], the item given by its [get]. *)
Definition matches (rule : Matcher) (item : string → PyVal) : bool :=
  match rule with
  | DictKeyMatcher key value => py_eq (item key) value
  | DictKeyAnyMatcher key values => existsb (py_eq (item key)) values
  end.

Definition _filter_item_matches (filters : list Matcher) (item : string → PyVal) : bool :=
  forallb (fun rule => matches rule item) filters.

Definition filter_by_dict {A} (get : A → string → PyVal) (d : list A) (filters : list Matcher)
  : list A :=
  List.filter (fun item => _filter_item_matches filters (get item)) d.

(** [-sys.maxsize - 1] and [sys.maxsize], with the [sys.maxsize] of a 64-bit
    build; Python integers themselves are unbounded. *)
Definition MIN : Z := - (2 ^ 63 - 1) - 1.
Definition MAX : Z := 2 ^ 63 - 1.

(** [d[k]] *)
Definition getitem {V} (d : gmap Z V) (k : Z) : result V :=
  match d !! k with
  | Some v => Ok v
  | None => Raise KeyError
  end.

(** [{w["id"]: w for w in items}]: of two records with one id the later
    one stays. *)
Definition id_map {V} (id : V → Z) (items : list V) : gmap Z V :=
  foldl (fun d w => <[id w := w]> d) ∅ items.

(** ** The processes started and the way a run ends *)

Inductive Event :=
| Run (argv : list string)
| Popen (argv : list string) (input : string)
| Print (text : string)
| PrintErr (text : string).

Inductive Outcome (A : Type) :=
| Returns (a : A)
| Exit (code : Z)
| Uncaught (e : PyExc).
Arguments Returns {A} a.
Arguments Exit {A} code.
Arguments Uncaught {A} e.

Definition Proc (A : Type) : Type := list Event * Outcome A.

#[global] Instance proc_ret : MRet Proc := fun _ a => ([], Returns a).
#[global] Instance proc_bind : MBind Proc := fun _ _ f m =>
  match m with
  | (t1, Returns a) => let '(t2, o) := f a in ((t1 ++ t2)%list, o)
  | (t1, Exit code) => (t1, Exit code)
  | (t1, Uncaught e) => (t1, Uncaught e)
  end.

Definition emit (e : Event) : Proc unit := ([e], Returns tt).
Definition sys_exit {A} (code : Z) : Proc A := ([], Exit code).
Definition lift {A} (r : result A) : Proc A :=
  match r with
  | Ok a => ([], Returns a)
  | Raise e => ([], Uncaught e)
  end.

(** ** Window session *)

Module WindowHandler.

Import WindowEntryDict.

Record t := mk {
  niri : NiriState.t;
  workspace_id_map : gmap Z Workspace;
  windows : list Window;
  multiple_workspaces : bool;
  multiple_outputs : bool;
  dmenu_prompt : string;
  dmenu_entries : list string;
  dmenu_selected : option string
}.

(** The three priorities of [sort_key], in the order it computes them. *)
Definition window_prio (select_focused : bool) (w : Window) : Z :=
  if select_focused then (if is_focused w then MIN else 0)
  else (if is_focused w then 0 else MIN).

Definition workspace_prio (workspace : Workspace) : Z :=
  if WorkspaceEntryDict.is_focused workspace then MIN
  else if WorkspaceEntryDict.is_active workspace then MIN + 1
  else 0.

Definition output_prio (niri : NiriState.t) (output : option string) : Z :=
  if py_eq (opt_val output) (opt_val (NiriState.focused_output niri)) then MIN else 0.

Definition sort_key (niri : NiriState.t) (workspace_id_map : gmap Z Workspace)
    (select_focused : bool) (w : Window) : result (list PyVal) :=
  workspace ← getitem workspace_id_map (workspace_id w);
  let output := WorkspaceEntryDict.output workspace in
  mret [VInt (workspace_prio workspace); VInt (window_prio select_focused w);
        VInt (output_prio niri output); opt_val output;
        VInt (WorkspaceEntryDict.idx workspace); VInt (id w)].

Definition _entry_to_dmenu (workspace_id_map : gmap Z Workspace)
    (multiple_workspaces multiple_outputs : bool) (entry : Window) : string :=
  let entry_dmenu := title entry in
  let entry_dmenu := if is_focused entry then "* " +:+ entry_dmenu else entry_dmenu in
  if multiple_workspaces then
    match workspace_id_map !! workspace_id entry with
    | Some workspace =>
        let workspace_name :=
          str_or (WorkspaceEntryDict.name workspace) (str (WorkspaceEntryDict.idx workspace)) in
        let workspace_name :=
          if multiple_outputs then
            match truthy (WorkspaceEntryDict.output workspace) with
            | Some output => workspace_name +:+ " / " +:+ output
            | None => workspace_name
            end
          else workspace_name in
        entry_dmenu +:+ " (@" +:+ workspace_name +:+ ")"
    | None => entry_dmenu
    end
  else entry_dmenu.

(** [if window_filters: windows = filter_by_dict(windows, window_filters)] *)
Definition candidates (windows : list Window) (window_filters : option (list Matcher))
  : list Window :=
  match window_filters with
  | Some ((_ :: _) as filters) => filter_by_dict get windows filters
  | _ => windows
  end.

Definition __init__ (niri : NiriState.t) (select_focused : bool)
    (window_filters : option (list Matcher)) : result t :=
  let workspace_id_map := id_map WorkspaceEntryDict.id (NiriState.workspaces niri) in
  let windows := candidates (NiriState.windows niri) window_filters in
  windows ← sorted (sort_key niri workspace_id_map select_focused) windows;
  let multiple_workspaces :=
    Nat.ltb 1 (size (list_to_set (map workspace_id windows) : gset Z)) in
  outputs ← mapM (fun win =>
               workspace ← getitem workspace_id_map (workspace_id win);
               mret (WorkspaceEntryDict.output workspace)) windows;
  let multiple_outputs :=
    Nat.ltb 1 (size (list_to_set outputs : gset (option string))) in
  let label := _entry_to_dmenu workspace_id_map multiple_workspaces multiple_outputs in
  mret {| niri := niri;
          workspace_id_map := workspace_id_map;
          windows := windows;
          multiple_workspaces := multiple_workspaces;
          multiple_outputs := multiple_outputs;
          dmenu_prompt := "Window";
          dmenu_entries := map label windows;
          dmenu_selected :=
            if select_focused then label <$> NiriState.focused_window niri else None |}.

(** The label of a record under the flags of a built session. *)
Definition label_of (self : t) (entry : Window) : string :=
  _entry_to_dmenu (workspace_id_map self) (multiple_workspaces self)
    (multiple_outputs self) entry.

Definition select (self : t) (idx : Z) : Proc unit :=
  entry ← lift (py_index (windows self) idx);
  let wid := str (id entry) in
  emit (Run ["niri"; "msg"; "action"; "focus-window"; "--id"; wid]).

End WindowHandler.

(** ** Workspace session *)

Module WorkspaceHandler.

Import WorkspaceEntryDict.

Record t := mk {
  niri : NiriState.t;
  window_id_map : gmap Z Window;
  workspaces : list Workspace;
  multiple_outputs : bool;
  dmenu_prompt : string;
  dmenu_entries : list string;
  dmenu_selected : option string
}.

Definition focus_prio (select_focused : bool) (w : Workspace) : Z :=
  if is_focused w then (if select_focused then -2 else MAX)
  else if is_active w then -1
  else 0.

Definition output_prio (niri : NiriState.t) (w : Workspace) : Z :=
  if py_eq (opt_val (output w)) (opt_val (NiriState.focused_output niri)) then -1 else 0.

Definition sort_key (niri : NiriState.t) (select_focused : bool) (w : Workspace)
  : result (list PyVal) :=
  mret [VInt (focus_prio select_focused w); VInt (output_prio niri w);
        opt_val (output w); VInt (idx w)].

Definition _entry_to_dmenu (window_id_map : gmap Z Window) (multiple_outputs : bool)
    (entry : Workspace) : string :=
  let entry_name := str_or (name entry) (str (idx entry)) in
  let entry_dmenu := "@" +:+ entry_name in
  let entry_dmenu := if is_focused entry then "* " +:+ entry_dmenu else entry_dmenu in
  let entry_dmenu :=
    if multiple_outputs then
      match truthy (output entry) with
      | Some output => entry_dmenu +:+ " / " +:+ output
      | None => entry_dmenu
      end
    else entry_dmenu in
  let focused_window_title :=
    match window_id_map !! active_window_id entry with
    | Some focused_window => WindowEntryDict.title focused_window
    | None => "(empty)"
    end in
  entry_dmenu +:+ " -- " +:+ focused_window_title.

Definition __init__ (niri : NiriState.t) (select_focused : bool) : result t :=
  let window_id_map := id_map WindowEntryDict.id (NiriState.windows niri) in
  let workspaces := NiriState.workspaces niri in
  workspaces ← sorted (sort_key niri select_focused) workspaces;
  let multiple_outputs :=
    Nat.ltb 1 (size (list_to_set (map output workspaces) : gset (option string))) in
  let label := _entry_to_dmenu window_id_map multiple_outputs in
  mret {| niri := niri;
          window_id_map := window_id_map;
          workspaces := workspaces;
          multiple_outputs := multiple_outputs;
          dmenu_prompt := "Workspace";
          dmenu_entries := map label workspaces;
          dmenu_selected :=
            if select_focused then label <$> NiriState.focused_workspace niri else None |}.

Definition select (self : t) (idx : Z) : Proc unit :=
  entry ← lift (py_index (workspaces self) idx);
  _ ← match truthy (output entry) with
      | Some output => emit (Run ["niri"; "msg"; "action"; "focus-monitor"; output])
      | None => mret tt
      end;
  emit (Run ["niri"; "msg"; "action"; "focus-workspace"; str (WorkspaceEntryDict.idx entry)]).

End WorkspaceHandler.

(** ** The command line and [main] *)

Module Args.

Record t := mk {
  width : Z;
  select_focused : bool;
  prompt : option string;
  windows : bool;
  workspaces : bool;
  app_id : option string;
  window_matching : option string;
  workspace : option string
}.

End Args.

(** [handler] is a session of either kind. *)
Inductive Handler :=
| OfWindows (h : WindowHandler.t)
| OfWorkspaces (h : WorkspaceHandler.t).

Definition dmenu_prompt (handler : Handler) : string :=
  match handler with
  | OfWindows h => WindowHandler.dmenu_prompt h
  | OfWorkspaces h => WorkspaceHandler.dmenu_prompt h
  end.

Definition dmenu_entries (handler : Handler) : list string :=
  match handler with
  | OfWindows h => WindowHandler.dmenu_entries h
  | OfWorkspaces h => WorkspaceHandler.dmenu_entries h
  end.

Definition dmenu_selected (handler : Handler) : option string :=
  match handler with
  | OfWindows h => WindowHandler.dmenu_selected h
  | OfWorkspaces h => WorkspaceHandler.dmenu_selected h
  end.

Definition select (handler : Handler) (idx : Z) : Proc unit :=
  match handler with
  | OfWindows h => WindowHandler.select h idx
  | OfWorkspaces h => WorkspaceHandler.select h idx
  end.

(** What [json.loads] gives: an object, with its items in order, or a value
    of another kind.  The values of an object are the scalars of [PyVal]. *)
Inductive Json :=
| JObject (items : list (string * PyVal))
| JOther.

Definition newline : string := String "010" "".

Section Main.

(** [json.loads]; [None] stands for its [ValueError]. *)
Variable json_loads : string → option Json.
(** The Picker: exit status and output of [fuzzel] for its arguments and input. *)
Variable fuzzel : list string → string → Z * string.
(** [int(text.strip())]; [None] stands for its [ValueError]. *)
Variable int_of_text : string → option Z.

Definition _parse_arg_as_json_dict (arg : string) : option (list (string * PyVal)) :=
  match json_loads arg with
  | Some (JObject items) => Some items
  | Some JOther => None
  | None => None
  end.

(** [match args.app_id]: the snapshot to go on with and the first rules. *)
Definition app_id_rules (niri : NiriState.t) (app_id : option string)
  : NiriState.t * list Matcher :=
  match app_id with
  | None => (niri, [])
  | Some app_id =>
      if String.eqb app_id "@focused" then
        match NiriState.focused_window niri with
        | Some focused_window =>
            (niri, [DictKeyMatcher "app_id" (VStr (WindowEntryDict.app_id focused_window))])
        | None => (NiriState.mk [] [], [])
        end
      else (niri, [DictKeyMatcher "app_id" (VStr app_id)])
  end.

(** [match args.window_matching] *)
Definition window_matching_rules (window_filters : list Matcher)
    (window_matching : option string) : Proc (list Matcher) :=
  match window_matching with
  | None => mret window_filters
  | Some text =>
      match _parse_arg_as_json_dict text with
      | Some ((_ :: _) as window_matchers_arg) =>
          mret (window_filters
                ++ map (fun '(k, v) => DictKeyMatcher k v) window_matchers_arg)%list
      | _ => _ ← emit (PrintErr "Invalid match rule for window"); sys_exit 1
      end
  end.

(** [match args.workspace] *)
Definition workspace_rules (niri : NiriState.t) (workspace : option string)
  : Proc (list Matcher) :=
  match workspace with
  | None => mret []
  | Some text =>
      if String.eqb text "@focused" then mret [DictKeyMatcher "is_focused" (VBool true)]
      else if String.eqb text "@active" then mret [DictKeyMatcher "is_active" (VBool true)]
      else
        match (if String.eqb text "@output" then truthy (NiriState.focused_output niri)
               else None) with
        | Some output => mret [DictKeyAnyMatcher "output" [VStr output]]
        | None =>
            match _parse_arg_as_json_dict text with
            | Some ((_ :: _) as workspace_matchers_arg) =>
                mret (map (fun '(k, v) => DictKeyMatcher k v) workspace_matchers_arg)
            | _ => _ ← emit (PrintErr "Invalid match rule for workspace"); sys_exit 1
            end
        end
  end.

(** [if workspace_matchers: ...] *)
Definition workspace_id_rule (niri : NiriState.t) (workspace_matchers window_filters : list Matcher)
  : Proc (list Matcher) :=
  match workspace_matchers with
  | [] => mret window_filters
  | _ :: _ =>
      let filtered_workspaces :=
        filter_by_dict WorkspaceEntryDict.get (NiriState.workspaces niri) workspace_matchers in
      let _ids : gset Z := list_to_set (map WorkspaceEntryDict.id filtered_workspaces) in
      match elements _ids with
      | [] => _ ← emit (PrintErr "Could not found workspaces by provided rules"); sys_exit 1
      | ids => mret (window_filters ++ [DictKeyAnyMatcher "workspace_id" (map VInt ids)])%list
      end
  end.

(** The branch [if args.windows: ... elif args.workspaces: ... else: ...]. *)
Definition build_handler (args : Args.t) (niri : NiriState.t) : Proc Handler :=
  if Args.windows args then
    let '(niri, window_filters) := app_id_rules niri (Args.app_id args) in
    window_filters ← window_matching_rules window_filters (Args.window_matching args);
    workspace_matchers ← workspace_rules niri (Args.workspace args);
    window_filters ← workspace_id_rule niri workspace_matchers window_filters;
    handler ← lift (WindowHandler.__init__ niri (Args.select_focused args) (Some window_filters));
    mret (OfWindows handler)
  else if Args.workspaces args then
    handler ← lift (WorkspaceHandler.__init__ niri (Args.select_focused args));
    mret (OfWorkspaces handler)
  else
    _ ← emit (Print "Must provide either --windows or --workspaces");
    sys_exit 1.

(** The command line of the Picker. *)
Definition fuzzel_cmd (args : Args.t) (fuzzel_args : list string) (handler : Handler)
  : list string :=
  let prompt := str_or (Args.prompt args) (dmenu_prompt handler) in
  let cmd := ["fuzzel"; "--dmenu"; "--index"; "--prompt"; prompt +:+ ": "] in
  let cmd :=
    if negb (existsb (String.prefix "--match-mode") fuzzel_args)
    then (cmd ++ ["--match-mode=fuzzy"])%list else cmd in
  let cmd :=
    if negb (existsb (fun arg => String.prefix "--width" arg || String.eqb arg "-w"
                                 || String.prefix "-w=" arg) fuzzel_args)
    then (cmd ++ ["--width=" +:+ str (Args.width args)])%list else cmd in
  let cmd :=
    match truthy (dmenu_selected handler) with
    | Some selected => (cmd ++ ["--select"; selected])%list
    | None => cmd
    end in
  match fuzzel_args with
  | [] => cmd
  | _ :: rest => (cmd ++ rest)%list
  end.

(** [main], from the parsed arguments and the snapshot the State Source gave. *)
Definition main (args : Args.t) (fuzzel_args : list string) (niri : NiriState.t) : Proc unit :=
  handler ← build_handler args niri;
  let cmd := fuzzel_cmd args fuzzel_args handler in
  let input := String.concat newline (dmenu_entries handler) in
  _ ← emit (Popen cmd input);
  let '(returncode, out_str) := fuzzel cmd input in
  if negb (returncode =? 0) then
    _ ← (if String.eqb out_str "" then mret tt
         else
           _ ← emit (Print ("Error: fuzzel returned non-zero status code: " +:+ str returncode));
           _ ← emit (Print ("Fuzzel output:" +:+ newline +:+ out_str));
           emit (PrintErr ""));
    sys_exit 2
  else
    selected_index ← lift (match int_of_text out_str with
                           | Some i => Ok i
                           | None => Raise ValueError
                           end);
    select handler selected_index.

End Main.

(** * Vocabulary of the statements *)

(** [<] on the keys [ks] never contradicts the order [R]. *)
Definition agrees (R : relation (list PyVal)) (ks : list (list PyVal)) : Prop :=
  ∀ a b (c : bool), a ∈ ks → b ∈ ks → tuple_lt a b = Ok c → if c then R a b else R b a.

(** Two items are in order when their keys are. *)
Definition key_rel {A} (key : A → result (list PyVal)) (R : relation (list PyVal))
    (x y : A) : Prop :=
  ∃ kx ky, key x = Ok kx ∧ key y = Ok ky ∧ R kx ky.

Definition lex_le (p q : Z * Z) : Prop := p.1 < q.1 ∨ (p.1 = q.1 ∧ p.2 ≤ q.2).

(** The first two fields of a ranking key. *)
Definition key_prefix (k : list PyVal) : Z * Z :=
  match k with
  | VInt a :: VInt b :: _ => (a, b)
  | _ => (0, 0)
  end.

(** Order of the keys by their first two fields, and by their first field. *)
Definition by_prefix (k1 k2 : list PyVal) : Prop := lex_le (key_prefix k1) (key_prefix k2).
Definition by_first (k1 k2 : list PyVal) : Prop := (key_prefix k1).1 ≤ (key_prefix k2).1.

(** The window label in the words of the specification: the title, [* ]
    before it for the focused window; with several workspaces the name of
    the workspace, or its idx when it has no name, in [ (@...)]; with
    several outputs too, and an output on the workspace, [ / output] after
    the name. *)
Definition spec_window_label (multiple_workspaces multiple_outputs : bool)
    (w : Window) (workspace : Workspace) : string :=
  let label :=
    if WindowEntryDict.is_focused w then "* " +:+ WindowEntryDict.title w
    else WindowEntryDict.title w in
  if multiple_workspaces then
    let name_or_idx :=
      match WorkspaceEntryDict.name workspace with
      | Some name => name
      | None => str (WorkspaceEntryDict.idx workspace)
      end in
    let inside :=
      if multiple_outputs then
        match WorkspaceEntryDict.output workspace with
        | Some output => name_or_idx +:+ " / " +:+ output
        | None => name_or_idx
        end
      else name_or_idx in
    label +:+ " (@" +:+ inside +:+ ")"
  else label.

(** A workspace record with its empty name or output read as absent. *)
Definition nonempty_fields (workspace : Workspace) : Workspace :=
  WorkspaceEntryDict.mk
    (WorkspaceEntryDict.id workspace) (WorkspaceEntryDict.idx workspace)
    (truthy (WorkspaceEntryDict.name workspace))
    (truthy (WorkspaceEntryDict.output workspace))
    (WorkspaceEntryDict.is_active workspace) (WorkspaceEntryDict.is_focused workspace)
    (WorkspaceEntryDict.active_window_id workspace).

(** [u <= v] as Python orders tuples: at the first position whose items
    are not [==] the item of [u] is [<] that of [v]; a proper prefix comes
    first. *)
Fixpoint tuple_le (u v : list PyVal) : Prop :=
  match u, v with
  | [], _ => True
  | _ :: _, [] => False
  | x :: u', y :: v' => py_lt x y = Ok true ∨ (py_eq x y = true ∧ tuple_le u' v')
  end.

(** ** Snapshots and command lines of the examples *)

Module Scenario.

(** Scenario A of the specification. *)
Definition windowA : Window := WindowEntryDict.mk 1 "A" "x" 10 true false.
Definition workspaceA : Workspace := WorkspaceEntryDict.mk 10 1 None None true true 1.
Definition niriA : NiriState.t := NiriState.mk [windowA] [workspaceA].

(** Two outputs, one workspace on each; the focused window sits on the
    workspace that is active but not focused. *)
Definition web : Workspace := WorkspaceEntryDict.mk 1 1 (Some "web") (Some "DP-1") true true 11.
Definition side : Workspace := WorkspaceEntryDict.mk 2 1 None (Some "HDMI-1") true false 12.
Definition browser : Window := WindowEntryDict.mk 11 "browser" "firefox" 1 false false.
Definition editor : Window := WindowEntryDict.mk 12 "editor" "emacs" 2 true false.
Definition niri_split : NiriState.t := NiriState.mk [browser; editor] [web; side].

(** The same desk with the focus on a terminal of the focused workspace. *)
Definition terminal : Window := WindowEntryDict.mk 13 "terminal" "foot" 1 true false.
Definition editor' : Window := WindowEntryDict.mk 12 "editor" "emacs" 2 false false.
Definition niri_desk : NiriState.t :=
  NiriState.mk [browser; terminal; editor'] [web; side].

(** The desk when no window has the focus. *)
Definition niri_idle : NiriState.t := NiriState.mk [browser; editor'] [web; side].

(** A focused workspace on one output, and two idle workspaces of which
    one has no output. *)
Definition main_ws : Workspace := WorkspaceEntryDict.mk 1 1 None (Some "DP-1") true true 0.
Definition detached : Workspace := WorkspaceEntryDict.mk 2 2 None None false false 21.
Definition spare : Workspace := WorkspaceEntryDict.mk 3 3 None (Some "HDMI-1") false false 22.
Definition mail : Window := WindowEntryDict.mk 21 "mail" "thunderbird" 2 false false.
Definition music : Window := WindowEntryDict.mk 22 "music" "mpv" 3 false false.
Definition niri_mixed : NiriState.t := NiriState.mk [mail; music] [main_ws; detached; spare].

(** Two workspaces of one output; the first has the empty text for a name. *)
Definition blank : Workspace := WorkspaceEntryDict.mk 1 1 (Some "") (Some "DP-1") true true 31.
Definition other : Workspace := WorkspaceEntryDict.mk 2 2 None (Some "DP-1") false false 32.
Definition notes : Window := WindowEntryDict.mk 31 "notes" "gedit" 1 false false.
Definition chat : Window := WindowEntryDict.mk 32 "chat" "irc" 2 false false.
Definition niri_blank : NiriState.t := NiriState.mk [notes; chat] [blank; other].

(** A single workspace whose output is the empty text. *)
Definition nowhere : Workspace := WorkspaceEntryDict.mk 1 1 None (Some "") true true 0.
Definition niri_nowhere : NiriState.t := NiriState.mk [] [nowhere].

(** A window whose workspace is not in the snapshot. *)
Definition stray : Window := WindowEntryDict.mk 41 "stray" "xterm" 99 false false.
Definition niri_stray : NiriState.t := NiriState.mk [windowA; stray] [workspaceA].

(** A command line for the window mode with nothing else set. *)
Definition plain : Args.t := Args.mk 80 false None true false None None None.
Definition with_app_id (app_id : string) (args : Args.t) : Args.t :=
  Args.mk (Args.width args) (Args.select_focused args) (Args.prompt args)
    (Args.windows args) (Args.workspaces args) (Some app_id)
    (Args.window_matching args) (Args.workspace args).
Definition with_workspace (workspace : string) (args : Args.t) : Args.t :=
  Args.mk (Args.width args) (Args.select_focused args) (Args.prompt args)
    (Args.windows args) (Args.workspaces args) (Args.app_id args)
    (Args.window_matching args) (Some workspace).

(** A [json.loads] that knows one text, the selector of Scenario D. *)
Definition quote : string := String "034" "".
Definition selector_D : string :=
  "{" +:+ quote +:+ "output" +:+ quote +:+ ":" +:+ quote +:+ "DP-9" +:+ quote +:+ "}".
Definition loads_D (text : string) : option Json :=
  if String.eqb text selector_D then Some (JObject [("output", VStr "DP-9")]) else None.
(** A Picker that answers with the first entry. *)
Definition pick_first (cmd : list string) (input : string) : Z * string := (0, "0").
Definition read_index (text : string) : option Z :=
  if String.eqb text "0" then Some 0 else None.

(** Two idle workspaces behind the active ones, one on each output, with a
    window each. *)
Definition archive : Workspace := WorkspaceEntryDict.mk 3 2 None (Some "DP-1") false false 52.
Definition attic : Workspace := WorkspaceEntryDict.mk 4 2 None (Some "HDMI-1") false false 51.
Definition logs : Window := WindowEntryDict.mk 51 "logs" "foot" 4 false false.
Definition docs : Window := WindowEntryDict.mk 52 "docs" "zathura" 3 false false.
Definition niri_attic : NiriState.t :=
  NiriState.mk [logs; docs; browser] [web; side; archive; attic].

(** Two windows of the focused workspace, neither focused, the higher id
    listed first. *)
Definition mailer : Window := WindowEntryDict.mk 14 "mailer" "thunderbird" 1 false false.
Definition niri_pair : NiriState.t := NiriState.mk [mailer; browser] [web; side].

(** A snapshot without a focused workspace. *)
Definition niri_unfocused : NiriState.t := NiriState.mk [editor'] [side].

Definition with_window_matching (window_matching : string) (args : Args.t) : Args.t :=
  Args.mk (Args.width args) (Args.select_focused args) (Args.prompt args)
    (Args.windows args) (Args.workspaces args) (Args.app_id args)
    (Some window_matching) (Args.workspace args).
Definition with_select_focused (args : Args.t) : Args.t :=
  Args.mk (Args.width args) true (Args.prompt args)
    (Args.windows args) (Args.workspaces args) (Args.app_id args)
    (Args.window_matching args) (Args.workspace args).

(** A [json.loads] for which every text is the empty object, and a Picker
    that the user dismisses. *)
Definition loads_empty (text : string) : option Json := Some (JObject []).
Definition pick_cancel (cmd : list string) (input : string) : Z * string := (1, "").

(** A command line for the workspace mode, a [--window-matching] text that
    asks for the windows of [foot], and a Picker that ends well without
    naming an entry. *)
Definition workspace_mode : Args.t := Args.mk 80 false None false true None None None.
Definition selector_foot : string :=
  "{" +:+ quote +:+ "app_id" +:+ quote +:+ ":" +:+ quote +:+ "foot" +:+ quote +:+ "}".
Definition loads_foot (text : string) : option Json :=
  if String.eqb text selector_foot then Some (JObject [("app_id", VStr "foot")]) else None.

End Scenario.

(** * Properties *)

Import Scenario.

(** ** The model of [sorted] *)

Section SortedFacts.

Context {A : Type}.
Implicit Types (l s r : list (list PyVal * A)).

Lemma result_bind_Ok {B C} (m : result B) (f : B → result C) (c : C) :
  m ≫= f = Ok c → ∃ b, m = Ok b ∧ f b = Ok c.
Proof. destruct m as [b|e]; cbn; [eauto | discriminate]. Qed.

Lemma mapM_Ok {B C} (f : B → result C) (xs : list B) (ys : list C) :
  mapM f xs = Ok ys → Forall2 (fun x y => f x = Ok y) xs ys.
Proof.
  revert ys; induction xs as [|x xs IH]; intros ys; cbn.
  - intros [= <-]; constructor.
  - intros H. apply result_bind_Ok in H as (y & Hy & H).
    apply result_bind_Ok in H as (ys' & Hys & H).
    injection H as <-. constructor; auto.
Qed.

Lemma insert_keyed_perm kx x l r :
  insert_keyed kx x l = Ok r → r ≡ₚ (kx, x) :: l.
Proof.
  revert r; induction l as [|[ky y] l IH]; intros r; cbn.
  - by intros [= <-].
  - intros H. apply result_bind_Ok in H as ([] & _ & H).
    + apply result_bind_Ok in H as (r' & Hr' & [= <-]).
      rewrite (IH _ Hr'). apply perm_swap.
    + by injection H as <-.
Qed.

Lemma sort_keyed_perm l s : sort_keyed l = Ok s → s ≡ₚ l.
Proof.
  revert s; induction l as [|[k x] l IH]; intros s; cbn.
  - by intros [= <-].
  - intros H. apply result_bind_Ok in H as (s' & Hs' & H).
    rewrite (insert_keyed_perm _ _ _ _ H). by rewrite (IH _ Hs').
Qed.

Section Order.

Variable R : relation (list PyVal).
Hypothesis R_trans : Transitive R.

Let R' : relation (list PyVal * A) := fun p q => R p.1 q.1.

Lemma insert_keyed_sorted kx x l r :
  agrees R (kx :: l.*1) → StronglySorted R' l →
  insert_keyed kx x l = Ok r → StronglySorted R' r.
Proof.
  intros Hag Hs; revert r; induction Hs as [|[ky y] l Hs IH Hall]; intros r; cbn.
  - intros [= <-]. repeat constructor.
  - intros H. apply result_bind_Ok in H as (b & Hlt & H).
    apply Hag in Hlt; [|cbn; rewrite !elem_of_cons; auto..].
    destruct b.
    + apply result_bind_Ok in H as (r' & Hr' & [= <-]).
      constructor.
      * apply IH; [|done]. intros a b c Ha Hb. apply Hag.
        all: cbn; revert Ha Hb; rewrite !elem_of_cons; tauto.
      * rewrite (insert_keyed_perm _ _ _ _ Hr'). by constructor.
    + injection H as <-. constructor; [by constructor|].
      constructor; [done|].
      eapply Forall_impl; [exact Hall|]. intros q Hq.
      unfold R' in *; cbn in *. by transitivity ky.
Qed.

Lemma sort_keyed_sorted l s :
  agrees R l.*1 → sort_keyed l = Ok s → StronglySorted R' s.
Proof.
  revert s; induction l as [|[k x] l IH]; intros s Hag; cbn.
  - intros [= <-]. constructor.
  - intros H. apply result_bind_Ok in H as (s' & Hs' & H).
    eapply insert_keyed_sorted; [| |exact H].
    + intros a b c Ha Hb. apply Hag; cbn.
      all: rewrite <-(sort_keyed_perm _ _ Hs'); done.
    + apply IH; [|done]. intros a b c Ha Hb. apply Hag; cbn; rewrite elem_of_cons; auto.
Qed.

End Order.

End SortedFacts.

Section SortedSpec.

Context {A : Type} (key : A → result (list PyVal)).
Variable R : relation (list PyVal).
Hypothesis R_trans : Transitive R.

Lemma keyed_Ok (items : list A) (keyed : list (list PyVal * A)) :
  mapM (fun x => k ← key x; mret (k, x)) items = Ok keyed →
  keyed.*2 = items ∧ Forall (fun p => key p.2 = Ok p.1) keyed.
Proof.
  intros H%mapM_Ok. induction H as [|x p items keyed Hp _ [IH1 IH2]]; [by split; constructor|].
  apply result_bind_Ok in Hp as (k & Hk & [= <-]). cbn. split; [by f_equal|].
  by constructor.
Qed.

Lemma sorted_Ok (items l : list A) :
  (∀ x y kx ky (c : bool), x ∈ items → y ∈ items → key x = Ok kx → key y = Ok ky →
     tuple_lt kx ky = Ok c → if c then R kx ky else R ky kx) →
  sorted key items = Ok l →
  l ≡ₚ items ∧ Forall (fun x => ∃ k, key x = Ok k) items ∧ StronglySorted (key_rel key R) l.
Proof.
  intros Hag H. unfold sorted in H.
  apply result_bind_Ok in H as (keyed & Hkeyed & H).
  apply result_bind_Ok in H as (s & Hs & [= <-]).
  apply keyed_Ok in Hkeyed as [<- Hkeys].
  pose proof (sort_keyed_perm _ _ Hs) as Hperm.
  split; [by rewrite Hperm|]. split.
  { apply Forall_fmap. eapply Forall_impl; [exact Hkeys|]. cbn; eauto. }
  assert (agrees R keyed.*1) as Hag'.
  { intros a b c (p & -> & Hp)%list_elem_of_fmap (q & -> & Hq)%list_elem_of_fmap.
    rewrite Forall_forall in Hkeys. intros Hlt.
    apply (Hag p.2 q.2 p.1 q.1 c); auto using list_elem_of_fmap_2. }
  pose proof (sort_keyed_sorted R R_trans _ _ Hag' Hs) as Hsorted.
  rewrite <-Hperm in Hkeys. clear Hs Hperm Hag Hag'.
  induction Hsorted as [|p s _ IH Hall]; [constructor|].
  apply Forall_cons in Hkeys as [Hp Hkeys]. cbn. constructor; [by apply IH|].
  apply Forall_fmap. rewrite Forall_forall in Hall, Hkeys. apply Forall_forall.
  intros q Hq. exists p.1, q.1. auto.
Qed.

End SortedSpec.

(** In a strongly sorted list an earlier item is related to a later one. *)
Lemma StronglySorted_lookup {A} (R : relation A) (l : list A) (i j : nat) (a b : A) :
  StronglySorted R l → l !! i = Some a → l !! j = Some b → (i < j)%nat → R a b.
Proof.
  intros Hs; revert i j; induction Hs as [|x l _ IH Hall]; intros i j Hi Hj Hlt; [done|].
  destruct j as [|j]; [lia|]. cbn in Hj. destruct i as [|i].
  - injection Hi as <-. rewrite Forall_forall in Hall.
    apply Hall, list_elem_of_lookup. eauto.
  - apply (IH i j); [done..|lia].
Qed.

Lemma mapM_total {B C} (f : B → result C) (xs : list B) :
  (∀ x, x ∈ xs → ∃ y, f x = Ok y) → ∃ ys, mapM f xs = Ok ys.
Proof.
  induction xs as [|x xs IH]; intros Hf; cbn; [eauto|].
  destruct (Hf x) as [y ->]; [apply elem_of_cons; auto|]. cbn.
  destruct IH as [ys ->]; [|cbn; eauto].
  intros z Hz. apply Hf, elem_of_cons; auto.
Qed.

Section Total.

Context {A : Type}.

Lemma insert_keyed_total kx (x : A) (l : list (list PyVal * A)) :
  (∀ p, p ∈ l → ∃ c : bool, tuple_lt p.1 kx = Ok c) →
  ∃ r, insert_keyed kx x l = Ok r.
Proof.
  induction l as [|[ky y] l IH]; intros Hcmp; cbn; [eauto|].
  destruct (Hcmp (ky, y)) as [c Hc]; [apply elem_of_cons; auto|].
  cbn in Hc. rewrite Hc. cbn. destruct c; [|eauto].
  destruct IH as [r ->]; [|cbn; eauto].
  intros p Hp. apply Hcmp, elem_of_cons; auto.
Qed.

Lemma sort_keyed_total (l : list (list PyVal * A)) :
  (∀ a b, a ∈ l.*1 → b ∈ l.*1 → ∃ c : bool, tuple_lt a b = Ok c) →
  ∃ s, sort_keyed l = Ok s.
Proof.
  induction l as [|[k x] l IH]; intros Hcmp; cbn; [eauto|].
  destruct IH as [s Hs].
  { intros a b Ha Hb. apply Hcmp; cbn; apply elem_of_cons; auto. }
  rewrite Hs. cbn. apply insert_keyed_total.
  intros p Hp. apply Hcmp; cbn; rewrite elem_of_cons; [right|by left].
  rewrite <-(sort_keyed_perm _ _ Hs). by apply list_elem_of_fmap_2.
Qed.

(** [sorted] returns when every key is computed and any two of them compare. *)
Lemma sorted_total (key : A → result (list PyVal)) (items : list A) :
  (∀ x, x ∈ items → ∃ k, key x = Ok k) →
  (∀ x y kx ky, x ∈ items → y ∈ items → key x = Ok kx → key y = Ok ky →
     ∃ c : bool, tuple_lt kx ky = Ok c) →
  ∃ l, sorted key items = Ok l.
Proof.
  intros Hkeys Hcmp. unfold sorted.
  assert (∃ keyed, mapM (fun x => k ← key x; mret (k, x)) items = Ok keyed) as [keyed Hkeyed].
  { apply mapM_total. intros x [k ->]%Hkeys. cbn. eauto. }
  rewrite Hkeyed. cbn.
  destruct (keyed_Ok _ _ _ Hkeyed) as [<- Hall]. rewrite Forall_forall in Hall.
  destruct (sort_keyed_total keyed) as [s ->]; [|cbn; eauto].
  intros a b (p & -> & Hp)%list_elem_of_fmap (q & -> & Hq)%list_elem_of_fmap.
  apply (Hcmp p.2 q.2); auto using list_elem_of_fmap_2.
Qed.

End Total.

(** ** The map of records by id *)

Section IdMap.

Context {V : Type} (id : V → Z).

Lemma foldl_insert_None (d : gmap Z V) (items : list V) (k : Z) :
  foldl (fun d w => <[id w := w]> d) d items !! k = None
  ↔ d !! k = None ∧ ∀ w, w ∈ items → id w ≠ k.
Proof.
  revert d; induction items as [|x items IH]; intros d; cbn.
  - split; [|tauto]. intros Hd. split; [done|]. by intros w Hw%elem_of_nil.
  - rewrite IH, lookup_insert_None. split.
    + intros [[Hd Hx] Hitems]. split; [done|].
      intros w [->|Hw]%elem_of_cons; auto.
    + intros [Hd Hitems]. split; [split; [done|]|].
      * apply Hitems, elem_of_cons; auto.
      * intros w Hw. apply Hitems, elem_of_cons; auto.
Qed.

Lemma foldl_insert_Some (d : gmap Z V) (items : list V) (k : Z) (v : V) :
  foldl (fun d w => <[id w := w]> d) d items !! k = Some v →
  d !! k = Some v ∨ (v ∈ items ∧ id v = k).
Proof.
  revert d; induction items as [|x items IH]; intros d; cbn; [auto|].
  intros [[[<- <-]|[_ Hd]]%lookup_insert_Some|[Hv Hk]]%IH.
  - right. split; [apply elem_of_cons; auto|done].
  - auto.
  - right. split; [apply elem_of_cons; auto|done].
Qed.

Lemma id_map_None (items : list V) (k : Z) :
  id_map id items !! k = None ↔ ∀ w, w ∈ items → id w ≠ k.
Proof. unfold id_map. rewrite foldl_insert_None, lookup_empty. tauto. Qed.

Lemma id_map_Some (items : list V) (k : Z) (v : V) :
  id_map id items !! k = Some v → v ∈ items ∧ id v = k.
Proof.
  unfold id_map. intros [Hd|Hv]%foldl_insert_Some; [|done].
  by rewrite lookup_empty in Hd.
Qed.

End IdMap.

Lemma keyed_Raise {A} (key : A → result (list PyVal)) (items : list A) (e : PyExc) :
  (∀ x, x ∈ items → (∃ k, key x = Ok k) ∨ key x = Raise e) →
  (∃ x, x ∈ items ∧ key x = Raise e) →
  mapM (fun x => k ← key x; mret (k, x)) items = Raise e.
Proof.
  induction items as [|x items IH]; intros Hall (y & Hy & Hraise).
  - by apply elem_of_nil in Hy.
  - cbn. destruct (Hall x) as [[k Hk]|Hk]; [apply elem_of_cons; auto| |by rewrite Hk].
    rewrite Hk. cbn. rewrite IH; [done| |].
    + intros z Hz. apply Hall, elem_of_cons; auto.
    + apply elem_of_cons in Hy as [->|Hy]; [congruence|eauto].
Qed.

(** ** Ranking keys *)

#[local] Instance by_prefix_trans : Transitive by_prefix.
Proof. intros x y z; unfold by_prefix, lex_le; lia. Qed.

#[local] Instance by_first_trans : Transitive by_first.
Proof. intros x y z; unfold by_first; lia. Qed.

Lemma MIN_neg : MIN < 0.
Proof. reflexivity. Qed.

Lemma MAX_pos : 0 < MAX.
Proof. reflexivity. Qed.

Lemma tuple_lt_by_prefix a b a' b' u v (c : bool) :
  tuple_lt (VInt a :: VInt b :: u) (VInt a' :: VInt b' :: v) = Ok c →
  if c then by_prefix (VInt a :: VInt b :: u) (VInt a' :: VInt b' :: v)
  else by_prefix (VInt a' :: VInt b' :: v) (VInt a :: VInt b :: u).
Proof.
  unfold by_prefix, lex_le; cbn.
  destruct (Z.eqb_spec a a') as [->|Ha].
  - destruct (Z.eqb_spec b b') as [->|Hb].
    + intros _. destruct c; lia.
    + intros [= <-]. destruct (Z.ltb_spec b b'); lia.
  - intros [= <-]. destruct (Z.ltb_spec a a'); lia.
Qed.

Lemma tuple_lt_by_first a b a' b' u v (c : bool) :
  tuple_lt (VInt a :: VInt b :: u) (VInt a' :: VInt b' :: v) = Ok c →
  if c then by_first (VInt a :: VInt b :: u) (VInt a' :: VInt b' :: v)
  else by_first (VInt a' :: VInt b' :: v) (VInt a :: VInt b :: u).
Proof.
  intros H%tuple_lt_by_prefix. unfold by_first, by_prefix, lex_le in *.
  destruct c; cbn in *; lia.
Qed.

Section WindowRanking.

Import WindowEntryDict WindowHandler.

Lemma window_sort_key_Ok niri m sf w k :
  sort_key niri m sf w = Ok k →
  ∃ workspace, m !! workspace_id w = Some workspace
    ∧ k = [VInt (workspace_prio workspace); VInt (window_prio sf w);
           VInt (output_prio niri (WorkspaceEntryDict.output workspace));
           opt_val (WorkspaceEntryDict.output workspace);
           VInt (WorkspaceEntryDict.idx workspace); VInt (id w)].
Proof.
  unfold sort_key, getitem. destruct (m !! workspace_id w) as [workspace|]; [|done].
  intros [= <-]. eauto.
Qed.

Lemma init_Ok niri sf filters h :
  __init__ niri sf filters = Ok h →
  WindowHandler.niri h = niri
  ∧ workspace_id_map h = id_map WorkspaceEntryDict.id (NiriState.workspaces niri)
  ∧ sorted (sort_key niri (workspace_id_map h) sf) (candidates (NiriState.windows niri) filters)
    = Ok (windows h)
  ∧ multiple_workspaces h
    = Nat.ltb 1 (size (list_to_set (map workspace_id (windows h)) : gset Z))
  ∧ (∃ outputs,
       mapM (fun win => workspace ← getitem (workspace_id_map h) (workspace_id win);
                        mret (WorkspaceEntryDict.output workspace)) (windows h) = Ok outputs
       ∧ multiple_outputs h = Nat.ltb 1 (size (list_to_set outputs : gset (option string))))
  ∧ dmenu_entries h = map (label_of h) (windows h)
  ∧ dmenu_selected h = if sf then label_of h <$> NiriState.focused_window niri else None.
Proof.
  unfold __init__. intros H.
  apply result_bind_Ok in H as (ws & Hws & H).
  apply result_bind_Ok in H as (outputs & Hout & [= <-]). cbn.
  repeat split; eauto.
Qed.

Lemma windows_ranked niri sf filters h :
  __init__ niri sf filters = Ok h →
  windows h ≡ₚ candidates (NiriState.windows niri) filters
  ∧ Forall (fun w => ∃ k, sort_key niri (workspace_id_map h) sf w = Ok k) (windows h)
  ∧ StronglySorted (key_rel (sort_key niri (workspace_id_map h) sf) by_prefix) (windows h).
Proof.
  intros (_ & _ & Hs & _)%init_Ok.
  apply (sorted_Ok _ by_prefix _) in Hs as (Hperm & Hkeys & Hsorted).
  - split; [done|]. split; [|done]. by rewrite Hperm.
  - intros x y kx ky c _ _ (wx & _ & ->)%window_sort_key_Ok (wy & _ & ->)%window_sort_key_Ok.
    apply tuple_lt_by_prefix.
Qed.

(** The bucket of the focused workspace is the lowest. *)
Lemma workspace_prio_focused_least wsf wsg :
  WorkspaceEntryDict.is_focused wsf = true → workspace_prio wsf ≤ workspace_prio wsg.
Proof.
  pose proof MIN_neg. unfold workspace_prio. intros ->.
  destruct (WorkspaceEntryDict.is_focused wsg), (WorkspaceEntryDict.is_active wsg); lia.
Qed.

End WindowRanking.

Section C1.

Import WindowEntryDict WindowHandler.

(** C1 (as amended).  In a built window session, for a focused candidate [f]:
    with [select_focused], [f] is the first entry provided it is the only
    focused candidate and no candidate lies in a lower workspace-priority
    bucket; without [select_focused], [f] comes after every non-focused
    candidate of its own workspace-priority bucket. *)
Theorem window_ranking_focus_rule niri filters f :
  f ∈ candidates (NiriState.windows niri) filters →
  is_focused f = true →
  (∀ h wsf,
     __init__ niri true filters = Ok h →
     workspace_id_map h !! workspace_id f = Some wsf →
     (∀ g, g ∈ candidates (NiriState.windows niri) filters → is_focused g = true → g = f) →
     (∀ g wsg, g ∈ candidates (NiriState.windows niri) filters →
        workspace_id_map h !! workspace_id g = Some wsg →
        workspace_prio wsf ≤ workspace_prio wsg) →
     windows h !! 0%nat = Some f)
  ∧ (∀ h wsf (i j : nat) g wsg,
       __init__ niri false filters = Ok h →
       workspace_id_map h !! workspace_id f = Some wsf →
       windows h !! i = Some f → windows h !! j = Some g →
       is_focused g = false →
       workspace_id_map h !! workspace_id g = Some wsg →
       workspace_prio wsg = workspace_prio wsf →
       (j < i)%nat).
Proof.
  intros Hf Hfoc. pose proof MIN_neg as Hmin. split.
  - intros h wsf Hinit Hwsf Huniq Hlow.
    destruct (windows_ranked _ _ _ _ Hinit) as (Hperm & Hkeys & Hsorted).
    rewrite <-Hperm in Hf. apply list_elem_of_lookup in Hf as [i Hi].
    destruct i as [|i]; [done|].
    destruct (windows h) as [|w rest] eqn:Hw; [done|]. cbn. f_equal.
    assert (w ∈ candidates (NiriState.windows niri) filters) as Hwc.
    { rewrite <-Hperm. apply elem_of_cons; auto. }
    apply Huniq; [done|].
    assert (key_rel (sort_key niri (workspace_id_map h) true) by_prefix w f) as Hrel.
    { eapply (StronglySorted_lookup _ _ 0 (S i)); [exact Hsorted|done|done|lia]. }
    destruct Hrel as (kw & kf & (wsw & Hwsw & ->)%window_sort_key_Ok
                      & (wsf' & Hwsf' & ->)%window_sort_key_Ok & Hle).
    rewrite Hwsf in Hwsf'; injection Hwsf' as <-.
    specialize (Hlow w wsw Hwc Hwsw).
    unfold by_prefix, lex_le, window_prio in Hle; cbn in Hle.
    rewrite Hfoc in Hle. destruct (is_focused w); [done|lia].
  - intros h wsf i j g wsg Hinit Hwsf Hi Hj Hg Hwsg Hbucket.
    destruct (windows_ranked _ _ _ _ Hinit) as (Hperm & Hkeys & Hsorted).
    destruct (decide (i < j)%nat) as [Hlt|Hge].
    + pose proof (StronglySorted_lookup _ _ _ _ _ _ Hsorted Hi Hj Hlt) as Hrel.
      destruct Hrel as (kf & kg & (wsf' & Hwsf' & ->)%window_sort_key_Ok
                        & (wsg' & Hwsg' & ->)%window_sort_key_Ok & Hle).
      rewrite Hwsf in Hwsf'; injection Hwsf' as <-.
      rewrite Hwsg in Hwsg'; injection Hwsg' as <-.
      unfold by_prefix, lex_le, window_prio in Hle; cbn in Hle.
      rewrite Hfoc, Hg in Hle. lia.
    + destruct (decide (i = j)) as [->|Hne]; [|lia].
      rewrite Hi in Hj; injection Hj as <-. congruence.
Qed.

End C1.

Lemma window_ranking_focus_rule_witness :
  (∃ h, WindowHandler.__init__ niri_desk true None = Ok h
        ∧ WindowHandler.windows h !! 0%nat = Some terminal)
  ∧ (∃ h, WindowHandler.__init__ niri_desk false None = Ok h
          ∧ WindowHandler.windows h !! 1%nat = Some terminal
          ∧ WindowHandler.windows h !! 0%nat = Some browser
          ∧ (0 < 1)%nat).
Proof.
  assert (terminal ∈ WindowHandler.candidates (NiriState.windows niri_desk) None) as Hin.
  { cbn. rewrite !elem_of_cons. auto. }
  destruct (window_ranking_focus_rule niri_desk None terminal Hin eq_refl) as [Hfirst Hlast].
  split.
  - eexists. split; [reflexivity|].
    eapply Hfirst with (wsf := web); [reflexivity|reflexivity| |].
    + intros g Hg. cbn in Hg. rewrite !elem_of_cons, elem_of_nil in Hg.
      destruct Hg as [->|[->|[->|[]]]]; [discriminate|done|discriminate].
    + intros g wsg _ _. by apply workspace_prio_focused_least.
  - eexists. split; [reflexivity|]. split; [reflexivity|]. split; [reflexivity|].
    eapply Hlast with (wsf := web) (i := 1%nat) (j := 0%nat) (g := browser) (wsg := web); reflexivity.
Defined.

(** C1 as stated fails: the focused window is a candidate, [select_focused]
    is set, and the first entry is another window, because the workspace of
    the focused window is not the focused workspace. *)
Lemma window_ranking_focus_rule_counterexample :
  ∃ h, WindowHandler.__init__ niri_split true None = Ok h
       ∧ NiriState.focused_window niri_split = Some editor
       ∧ editor ∈ WindowHandler.candidates (NiriState.windows niri_split) None
       ∧ WindowHandler.windows h = [browser; editor]
       ∧ WindowHandler.windows h !! 0%nat ≠ Some editor.
Proof.
  eexists. split; [reflexivity|]. split; [reflexivity|]. split.
  { cbn. rewrite !elem_of_cons. auto. }
  split; [reflexivity|]. discriminate.
Qed.

Section WorkspaceRanking.

Import WorkspaceEntryDict WorkspaceHandler.

Lemma workspace_init_Ok niri sf h :
  __init__ niri sf = Ok h →
  sorted (sort_key niri sf) (NiriState.workspaces niri) = Ok (workspaces h)
  ∧ multiple_outputs h
    = Nat.ltb 1 (size (list_to_set (map output (workspaces h)) : gset (option string)))
  ∧ dmenu_entries h
    = map (_entry_to_dmenu (window_id_map h) (multiple_outputs h)) (workspaces h).
Proof.
  unfold __init__. intros H.
  apply result_bind_Ok in H as (ws & Hws & [= <-]). cbn. auto.
Qed.

Lemma workspaces_ranked niri sf h :
  __init__ niri sf = Ok h →
  workspaces h ≡ₚ NiriState.workspaces niri
  ∧ StronglySorted (key_rel (sort_key niri sf) by_first) (workspaces h).
Proof.
  intros (Hs & _)%workspace_init_Ok.
  apply (sorted_Ok _ by_first _) in Hs as (Hperm & _ & Hsorted); [done|].
  intros x y kx ky c _ _ [= <-] [= <-]. apply tuple_lt_by_first.
Qed.

Lemma focused_workspace_Some niri fw :
  NiriState.focused_workspace niri = Some fw →
  fw ∈ NiriState.workspaces niri ∧ is_focused fw = true.
Proof.
  intros [Hin Hfoc]%find_some. split; [by apply list_elem_of_In|done].
Qed.

(** C2.  In a built workspace session over a snapshot whose only focused
    workspace is [fw]: with [select_focused] the first entry is [fw], without
    it the last entry is [fw]. *)
Theorem workspace_ranking_focus_rule niri fw :
  NiriState.focused_workspace niri = Some fw →
  (∀ w, w ∈ NiriState.workspaces niri → is_focused w = true → w = fw) →
  (∀ h, __init__ niri true = Ok h → workspaces h !! 0%nat = Some fw)
  ∧ (∀ h, __init__ niri false = Ok h → last (workspaces h) = Some fw).
Proof.
  intros [Hin Hfoc]%focused_workspace_Some Huniq.
  pose proof MAX_pos as Hmax. split.
  - intros h (Hperm & Hsorted)%workspaces_ranked.
    rewrite <-Hperm in Hin. apply list_elem_of_lookup in Hin as [i Hi].
    destruct i as [|i]; [done|].
    destruct (workspaces h) as [|w rest] eqn:Hw; [done|]. cbn. f_equal.
    apply Huniq; [rewrite <-Hperm; apply elem_of_cons; auto|].
    assert (key_rel (sort_key niri true) by_first w fw) as (kw & kf & [= <-] & [= <-] & Hle).
    { eapply (StronglySorted_lookup _ _ 0 (S i)); [exact Hsorted|done|done|lia]. }
    unfold by_first, focus_prio in Hle; cbn in Hle. rewrite Hfoc in Hle.
    destruct (is_focused w); [done|]. destruct (is_active w); lia.
  - intros h (Hperm & Hsorted)%workspaces_ranked.
    rewrite <-Hperm in Hin. apply list_elem_of_lookup in Hin as [i Hi].
    pose proof (lookup_lt_Some _ _ _ Hi) as Hlen.
    rewrite last_lookup.
    destruct (decide (i = pred (length (workspaces h)))) as [->|Hne]; [done|].
    destruct (lookup_lt_is_Some_2 (workspaces h) (pred (length (workspaces h))))
      as [w Hw]; [lia|].
    rewrite Hw. f_equal.
    apply Huniq; [rewrite <-Hperm; by eapply list_elem_of_lookup_2|].
    assert (key_rel (sort_key niri false) by_first fw w) as (kf & kw & [= <-] & [= <-] & Hle).
    { eapply (StronglySorted_lookup _ _ i); [exact Hsorted|done|done|lia]. }
    unfold by_first, focus_prio in Hle; cbn in Hle. rewrite Hfoc in Hle.
    destruct (is_focused w); [done|]. destruct (is_active w); lia.
Qed.

End WorkspaceRanking.

Lemma workspace_ranking_focus_rule_witness :
  (∃ h, WorkspaceHandler.__init__ niri_desk true = Ok h
        ∧ WorkspaceHandler.workspaces h !! 0%nat = Some web)
  ∧ (∃ h, WorkspaceHandler.__init__ niri_desk false = Ok h
          ∧ last (WorkspaceHandler.workspaces h) = Some web).
Proof.
  assert (∀ w, w ∈ NiriState.workspaces niri_desk →
               WorkspaceEntryDict.is_focused w = true → w = web) as Huniq.
  { intros w Hw. cbn in Hw. rewrite !elem_of_cons, elem_of_nil in Hw.
    destruct Hw as [->|[->|[]]]; [done|discriminate]. }
  destruct (workspace_ranking_focus_rule niri_desk web eq_refl Huniq) as [Hfirst Hlast].
  split; eexists; (split; [reflexivity|]); [apply Hfirst|apply Hlast]; reflexivity.
Defined.

(** ** When the rankings are computed *)

(** Keys whose output field is a text compare. *)
Lemma tuple_lt_window_keys a b c o i j a' b' c' o' i' j' :
  ∃ r : bool,
    tuple_lt [VInt a; VInt b; VInt c; VStr o; VInt i; VInt j]
             [VInt a'; VInt b'; VInt c'; VStr o'; VInt i'; VInt j'] = Ok r.
Proof.
  cbn. repeat (match goal with |- context [if ?t then _ else _] => destruct t end; eauto).
Qed.

Lemma tuple_lt_workspace_keys a b o i a' b' o' i' :
  ∃ r : bool,
    tuple_lt [VInt a; VInt b; VStr o; VInt i] [VInt a'; VInt b'; VStr o'; VInt i'] = Ok r.
Proof.
  cbn. repeat (match goal with |- context [if ?t then _ else _] => destruct t end; eauto).
Qed.

(** The rankings are computed when every workspace of the snapshot has an
    output and, for the windows, every candidate has its workspace. *)
Lemma workspace_ranking_total niri sf :
  (∀ w, w ∈ NiriState.workspaces niri → ∃ o, WorkspaceEntryDict.output w = Some o) →
  ∃ h, WorkspaceHandler.__init__ niri sf = Ok h.
Proof.
  intros Hout. unfold WorkspaceHandler.__init__.
  destruct (sorted_total (WorkspaceHandler.sort_key niri sf) (NiriState.workspaces niri))
    as [l ->]; [by eauto| |cbn; eauto].
  intros x y kx ky Hx Hy [= <-] [= <-].
  destruct (Hout x Hx) as [ox ->], (Hout y Hy) as [oy ->]. apply tuple_lt_workspace_keys.
Qed.

Lemma window_ranking_total niri sf filters :
  (∀ w, w ∈ NiriState.workspaces niri → ∃ o, WorkspaceEntryDict.output w = Some o) →
  (∀ w, w ∈ WindowHandler.candidates (NiriState.windows niri) filters →
     ∃ workspace, workspace ∈ NiriState.workspaces niri
                  ∧ WorkspaceEntryDict.id workspace = WindowEntryDict.workspace_id w) →
  ∃ h, WindowHandler.__init__ niri sf filters = Ok h.
Proof.
  intros Hout Hws. unfold WindowHandler.__init__.
  set (m := id_map WorkspaceEntryDict.id (NiriState.workspaces niri)).
  assert (∀ w, w ∈ WindowHandler.candidates (NiriState.windows niri) filters →
               ∃ workspace o, m !! WindowEntryDict.workspace_id w = Some workspace
                              ∧ WorkspaceEntryDict.output workspace = Some o) as Hm.
  { intros w (workspace & Hin & Hid)%Hws.
    destruct (m !! WindowEntryDict.workspace_id w) as [workspace'|] eqn:Hlook.
    - destruct (id_map_Some _ _ _ _ Hlook) as [Hin' _].
      destruct (Hout _ Hin') as [o Ho]. eauto.
    - exfalso. eapply id_map_None in Hlook; eauto. }
  destruct (sorted_total (WindowHandler.sort_key niri m sf)
              (WindowHandler.candidates (NiriState.windows niri) filters)) as [l Hl].
  - intros w (workspace & o & Hlook & _)%Hm.
    unfold WindowHandler.sort_key, getitem. rewrite Hlook. cbn. eauto.
  - intros x y kx ky (wx & ox & Hx & Hox)%Hm (wy & oy & Hy & Hoy)%Hm.
    unfold WindowHandler.sort_key, getitem. rewrite Hx, Hy. cbn. intros [= <-] [= <-].
    rewrite Hox, Hoy. apply tuple_lt_window_keys.
  - rewrite Hl. cbn.
    match goal with |- context [mapM ?f l] =>
      assert (∃ outputs, mapM f l = Ok outputs) as [outputs ->]; [|cbn; eauto] end.
    assert (l ≡ₚ WindowHandler.candidates (NiriState.windows niri) filters) as Hperm.
    { eapply (sorted_Ok _ (fun _ _ => True)); [by intros ? ? ?| |exact Hl].
      intros; by destruct c. }
    assert (∀ w, w ∈ l → ∃ workspace, m !! WindowEntryDict.workspace_id w = Some workspace)
      as Hlook.
    { intros w Hw. rewrite Hperm in Hw. destruct (Hm w Hw) as (workspace & _ & ? & _). eauto. }
    apply mapM_total. intros w [workspace Hw]%Hlook.
    unfold getitem. rewrite Hw. cbn. eauto.
Qed.


(** C3.  With an idle workspace that has no output next to an idle workspace
    that has one, the two keys agree up to the output field, [None < str] is
    evaluated, and both rankings raise [TypeError], whatever [select_focused]. *)
Theorem ranking_mixed_outputs_raises :
  ∀ sf, WindowHandler.__init__ niri_mixed sf None = Raise TypeError
        ∧ WorkspaceHandler.__init__ niri_mixed sf = Raise TypeError.
Proof. intros []; split; reflexivity. Qed.

(** ** Window labels *)

(** [len(set(l)) > 1] says that [l] has two different items. *)
Lemma several_distinct `{Countable K} (l : list K) :
  Nat.ltb 1 (size (list_to_set l : gset K)) = true ↔ ∃ a b, a ∈ l ∧ b ∈ l ∧ a ≠ b.
Proof.
  rewrite Nat.ltb_lt. split.
  - intros Hsize. destruct l as [|x l]; [rewrite list_to_set_nil, size_empty in Hsize; lia|].
    destruct (decide (Forall (eq x) l)) as [Hall|Hex].
    + exfalso. assert (list_to_set (x :: l) ⊆ ({[x]} : gset K)) as Hsub.
      { intros y. rewrite elem_of_list_to_set, elem_of_cons, elem_of_singleton.
        rewrite Forall_forall in Hall. intros [->|Hy]; [done|]. symmetry; auto. }
      apply subseteq_size in Hsub. rewrite size_singleton in Hsub. lia.
    + apply not_Forall_Exists in Hex; [|apply _].
      apply Exists_exists in Hex as (y & Hy & Hne).
      exists x, y. rewrite !elem_of_cons. auto.
  - intros (a & b & Ha & Hb & Hne).
    assert (({[a]} ∪ {[b]} : gset K) ⊆ list_to_set l) as Hsub.
    { intros y. rewrite elem_of_union, !elem_of_singleton, elem_of_list_to_set.
      by intros [->| ->]. }
    apply subseteq_size in Hsub.
    rewrite size_union, !size_singleton in Hsub; [lia|].
    intros y. rewrite !elem_of_singleton. congruence.
Qed.

Section WindowLabel.

Import WindowEntryDict WindowHandler.

Lemma label_of_spec h w workspace :
  workspace_id_map h !! workspace_id w = Some workspace →
  label_of h w
  = spec_window_label (multiple_workspaces h) (multiple_outputs h) w
      (nonempty_fields workspace).
Proof.
  intros Hws. unfold label_of, _entry_to_dmenu, spec_window_label, str_or. rewrite Hws. cbn.
  destruct (multiple_workspaces h); [|done].
  destruct (truthy (WorkspaceEntryDict.name workspace)); cbn;
    destruct (multiple_outputs h); try done;
    destruct (truthy (WorkspaceEntryDict.output workspace)); done.
Qed.

Lemma outputs_Ok (m : gmap Z Workspace) (ws : list Window) (outputs : list (option string)) :
  mapM (fun win => workspace ← getitem m (workspace_id win);
                   mret (WorkspaceEntryDict.output workspace)) ws = Ok outputs →
  ∀ o, o ∈ outputs ↔
       ∃ w workspace, w ∈ ws ∧ m !! workspace_id w = Some workspace
                      ∧ WorkspaceEntryDict.output workspace = o.
Proof.
  intros H%mapM_Ok. induction H as [|w o' ws outputs Hw _ IH]; intros o.
  - rewrite elem_of_nil. split; [done|]. intros (w & ? & Hw%elem_of_nil & _). done.
  - apply result_bind_Ok in Hw as (workspace & Hget & [= <-]).
    unfold getitem in Hget. destruct (m !! workspace_id w) as [ws'|] eqn:Hm; [|done].
    injection Hget as ->.
    rewrite elem_of_cons, IH. split.
    + intros [->|(w' & ws' & Hw' & Hm' & Ho)].
      * exists w, workspace. rewrite elem_of_cons. auto.
      * exists w', ws'. rewrite elem_of_cons. auto.
    + intros (w' & ws' & [->|Hw']%elem_of_cons & Hm' & Ho).
      * left. congruence.
      * right. eauto.
Qed.

(** C4 (as amended).  In a built window session: [multiple_workspaces] says
    that the candidates span two workspace ids, [multiple_outputs] that their
    workspaces carry two different output values (absent being one value),
    and the label of every candidate is the label of the specification read
    on the workspace record whose empty name or output counts as absent.
    Scenario A has the one label [* A], which is also the pre-selected one. *)
Theorem window_label_format :
  (∀ niri sf filters h,
     __init__ niri sf filters = Ok h →
     (multiple_workspaces h = true ↔
        ∃ a b, a ∈ windows h ∧ b ∈ windows h ∧ workspace_id a ≠ workspace_id b)
     ∧ (multiple_outputs h = true ↔
          ∃ a b wsa wsb, a ∈ windows h ∧ b ∈ windows h
            ∧ workspace_id_map h !! workspace_id a = Some wsa
            ∧ workspace_id_map h !! workspace_id b = Some wsb
            ∧ WorkspaceEntryDict.output wsa ≠ WorkspaceEntryDict.output wsb)
     ∧ (∀ (i : nat) w, windows h !! i = Some w →
          ∃ workspace,
            workspace_id_map h !! workspace_id w = Some workspace
            ∧ dmenu_entries h !! i
              = Some (spec_window_label (multiple_workspaces h) (multiple_outputs h) w
                        (nonempty_fields workspace))))
  ∧ (∃ h, __init__ niriA true None = Ok h
          ∧ dmenu_entries h = ["* A"] ∧ dmenu_selected h = Some "* A").
Proof.
  split; [|eexists; split; [reflexivity|split; reflexivity]].
  intros niri sf filters h Hinit.
  destruct (windows_ranked _ _ _ _ Hinit) as (_ & Hkeys & _).
  apply init_Ok in Hinit as (_ & _ & _ & Hmw & (outputs & Hout & Hmo) & Hentries & _).
  split; [|split].
  - rewrite Hmw, several_distinct. split.
    + intros (a & b & (x & -> & Hx)%list_elem_of_fmap & (y & -> & Hy)%list_elem_of_fmap & Hne).
      eauto.
    + intros (a & b & Ha & Hb & Hne).
      exists (workspace_id a), (workspace_id b). auto using list_elem_of_fmap_2.
  - rewrite Hmo, several_distinct. pose proof (outputs_Ok _ _ _ Hout) as Hmem. split.
    + intros (o1 & o2 & (a & wsa & Ha & Hwsa & <-)%Hmem & (b & wsb & Hb & Hwsb & <-)%Hmem & Hne).
      exists a, b, wsa, wsb. auto.
    + intros (a & b & wsa & wsb & Ha & Hb & Hwsa & Hwsb & Hne).
      exists (WorkspaceEntryDict.output wsa), (WorkspaceEntryDict.output wsb).
      split; [apply Hmem; eauto|]. split; [apply Hmem; eauto|done].
  - intros i w Hi.
    rewrite Forall_forall in Hkeys.
    destruct (Hkeys w) as (k & (workspace & Hws & _)%window_sort_key_Ok);
      [by eapply list_elem_of_lookup_2|].
    exists workspace. split; [done|].
    rewrite Hentries, list_lookup_fmap, Hi. cbn. f_equal.
    by apply label_of_spec.
Qed.

End WindowLabel.

Lemma window_label_format_witness :
  ∃ h, WindowHandler.__init__ niri_split true None = Ok h
       ∧ ∃ workspace,
           WindowHandler.workspace_id_map h !! WindowEntryDict.workspace_id browser
           = Some workspace
           ∧ WindowHandler.dmenu_entries h !! 0%nat
             = Some (spec_window_label (WindowHandler.multiple_workspaces h)
                       (WindowHandler.multiple_outputs h) browser
                       (nonempty_fields workspace)).
Proof.
  eexists. split; [reflexivity|].
  eapply (proj1 window_label_format niri_split true None); reflexivity.
Defined.

(** C4 as stated fails on a workspace whose name is the empty text: the
    label shows the idx where the specification's label shows the name. *)
Lemma window_label_format_counterexample :
  ∃ h, WindowHandler.__init__ niri_blank false None = Ok h
       ∧ WindowHandler.windows h !! 0%nat = Some notes
       ∧ WindowHandler.workspace_id_map h !! WindowEntryDict.workspace_id notes = Some blank
       ∧ WorkspaceEntryDict.name blank = Some ""
       ∧ WindowHandler.dmenu_entries h !! 0%nat = Some "notes (@1)"
       ∧ spec_window_label (WindowHandler.multiple_workspaces h)
           (WindowHandler.multiple_outputs h) notes blank = "notes (@)".
Proof. eexists. repeat split; reflexivity. Qed.

Section Main.

Variable json_loads : string → option Json.
Variable fuzzel : list string → string → Z * string.
Variable int_of_text : string → option Z.

Lemma workspace_rules_nonempty niri text ms :
  workspace_rules json_loads niri (Some text) = ([], Returns ms) → ms ≠ [].
Proof.
  unfold workspace_rules.
  destruct (String.eqb text "@focused"); [by intros [= <-]|].
  destruct (String.eqb text "@active"); [by intros [= <-]|].
  destruct (if String.eqb text "@output" then _ else _); [by intros [= <-]|].
  destruct (_parse_arg_as_json_dict json_loads text) as [[|[k v] items]|]; try done.
  by intros [= <-].
Qed.

Lemma window_matching_rules_cases window_filters window_matching :
  (∃ filters, window_matching_rules json_loads window_filters window_matching
              = ([], Returns filters))
  ∨ window_matching_rules json_loads window_filters window_matching
    = ([PrintErr "Invalid match rule for window"], Exit 1).
Proof.
  unfold window_matching_rules. destruct window_matching as [text|]; [|left; eauto].
  destruct (_parse_arg_as_json_dict json_loads text) as [[|]|]; [right| left|right]; eauto.
Qed.

(** C6.  In the window mode, when the workspace selector is resolved to
    rules and no workspace of the snapshot matches them, [main] prints one
    message on the error stream and exits with status 1: nothing else starts,
    the Picker in particular. *)
Theorem empty_workspace_resolution_aborts args fuzzel_args niri text rules :
  Args.windows args = true →
  Args.workspace args = Some text →
  workspace_rules json_loads (app_id_rules niri (Args.app_id args)).1 (Some text)
  = ([], Returns rules) →
  filter_by_dict WorkspaceEntryDict.get
    (NiriState.workspaces (app_id_rules niri (Args.app_id args)).1) rules = [] →
  ∃ message,
    main json_loads fuzzel int_of_text args fuzzel_args niri = ([PrintErr message], Exit 1).
Proof.
  intros Hwin Hsel Hrules Hnone.
  unfold main, build_handler. rewrite Hwin, Hsel.
  destruct (app_id_rules niri (Args.app_id args)) as [niri' window_filters]. cbn in *.
  destruct (window_matching_rules_cases window_filters (Args.window_matching args))
    as [[filters ->]| ->]; [|cbn; eauto].
  cbn. rewrite Hrules. cbn.
  apply workspace_rules_nonempty in Hrules.
  unfold workspace_id_rule. destruct rules as [|rule rules]; [done|].
  rewrite Hnone. cbn. rewrite elements_empty. cbn. eauto.
Qed.

Lemma proc_bind_Returns {A B} (a : A) (k : A → Proc B) :
  ([], Returns a) ≫= k = k a.
Proof. unfold mbind, proc_bind. by destruct (k a). Qed.

Lemma proc_bind_emit {B} (e : Event) (k : unit → Proc B) :
  emit e ≫= k = (e :: (k tt).1, (k tt).2).
Proof. unfold emit, mbind, proc_bind. by destruct (k tt). Qed.

Lemma app_id_rules_unfocused niri :
  NiriState.focused_window niri = None →
  app_id_rules niri (Some "@focused") = (NiriState.mk [] [], []).
Proof. intros H. unfold app_id_rules. cbn. by rewrite H. Qed.

Lemma window_init_empty sf filters :
  ∃ h, WindowHandler.__init__ (NiriState.mk [] []) sf filters = Ok h
       ∧ WindowHandler.windows h = [] ∧ WindowHandler.dmenu_entries h = [].
Proof.
  unfold WindowHandler.__init__.
  assert (WindowHandler.candidates (NiriState.windows (NiriState.mk [] [])) filters = [])
    as ->; [by destruct filters as [[|]|]|].
  cbn. eauto.
Qed.

(** C5 (as amended).  In the window mode with [--app-id @focused], no focused
    window in the snapshot, no workspace selector and a [--window-matching]
    rule that is absent or accepted: the session is built without an error,
    with no candidate and no label, and the first thing [main] does is to
    start the Picker on the empty input. *)
Theorem focused_app_id_without_focus args fuzzel_args niri filters :
  Args.windows args = true →
  Args.app_id args = Some "@focused" →
  NiriState.focused_window niri = None →
  Args.workspace args = None →
  window_matching_rules json_loads [] (Args.window_matching args) = ([], Returns filters) →
  ∃ h,
    build_handler json_loads args niri = ([], Returns (OfWindows h))
    ∧ WindowHandler.windows h = []
    ∧ WindowHandler.dmenu_entries h = []
    ∧ ∃ rest outcome,
        main json_loads fuzzel int_of_text args fuzzel_args niri
        = (Popen (fuzzel_cmd args fuzzel_args (OfWindows h)) "" :: rest, outcome).
Proof.
  intros Hwin Happ Hfoc Hsel Hrules.
  destruct (window_init_empty (Args.select_focused args) (Some filters))
    as (h & Hinit & Hwindows & Hentries).
  assert (build_handler json_loads args niri = ([], Returns (OfWindows h))) as Hbuild.
  { unfold build_handler. rewrite Hwin, Happ, (app_id_rules_unfocused _ Hfoc), Hrules, Hsel.
    cbn -[WindowHandler.__init__]. rewrite Hinit. done. }
  exists h. repeat (split; [done|]).
  unfold main. rewrite Hbuild, proc_bind_Returns, proc_bind_emit.
  cbn [dmenu_entries]. rewrite Hentries. eauto.
Qed.

End Main.

Lemma empty_workspace_resolution_aborts_witness :
  workspace_rules loads_D niri_desk (Some selector_D)
  = ([], Returns [DictKeyMatcher "output" (VStr "DP-9")])
  ∧ filter_by_dict WorkspaceEntryDict.get (NiriState.workspaces niri_desk)
      [DictKeyMatcher "output" (VStr "DP-9")] = []
  ∧ ∃ message,
      main loads_D pick_first read_index (with_workspace selector_D plain) [] niri_desk
      = ([PrintErr message], Exit 1).
Proof.
  split; [reflexivity|]. split; [reflexivity|].
  eapply empty_workspace_resolution_aborts; reflexivity.
Defined.

Lemma focused_app_id_without_focus_witness :
  NiriState.focused_window niri_idle = None
  ∧ ∃ h,
      build_handler loads_D (with_app_id "@focused" plain) niri_idle
      = ([], Returns (OfWindows h))
      ∧ WindowHandler.windows h = []
      ∧ WindowHandler.dmenu_entries h = []
      ∧ ∃ rest outcome,
          main loads_D pick_first read_index (with_app_id "@focused" plain) [] niri_idle
          = (Popen (fuzzel_cmd (with_app_id "@focused" plain) [] (OfWindows h)) "" :: rest,
             outcome).
Proof.
  split; [reflexivity|].
  eapply focused_app_id_without_focus; reflexivity.
Defined.

(** C5 as stated fails once a workspace selector comes with the filter: the
    snapshot put in place of the real one has no workspace, the selector
    matches nothing, and [main] ends with an error before the Picker. *)
Lemma focused_app_id_without_focus_counterexample :
  NiriState.focused_window niri_idle = None
  ∧ NiriState.focused_workspace niri_idle = Some web
  ∧ main loads_D pick_first read_index
      (with_workspace "@focused" (with_app_id "@focused" plain)) [] niri_idle
    = ([PrintErr "Could not found workspaces by provided rules"], Exit 1).
Proof. repeat split; reflexivity. Qed.

(** ** [select] *)

Section Select.

Lemma py_index_out_of_range {A} (l : list A) (i : Z) :
  i < - Z.of_nat (length l) ∨ Z.of_nat (length l) ≤ i →
  py_index l i = Raise IndexError.
Proof.
  intros Hi. unfold py_index.
  destruct (Z.ltb_spec i 0);
    match goal with |- context [(?a <? 0) || (?n <=? ?a)] =>
      destruct (Z.ltb_spec a 0); destruct (Z.leb_spec n a) end; cbn; try done; lia.
Qed.

Lemma py_index_position {A} (l : list A) (i : nat) (x : A) :
  l !! i = Some x → py_index l (Z.of_nat i) = Ok x.
Proof.
  intros Hi. pose proof (lookup_lt_Some _ _ _ Hi) as Hlen. unfold py_index.
  destruct (Z.ltb_spec (Z.of_nat i) 0); [lia|].
  destruct (Z.ltb_spec (Z.of_nat i) 0); [lia|].
  destruct (Z.leb_spec (Z.of_nat (length l)) (Z.of_nat i)); [lia|]. cbn.
  by rewrite Nat2Z.id, Hi.
Qed.

(** C7 (as amended).  [select] fails with [IndexError], and starts nothing,
    for every index that is at least the length of the ranked sequence or
    below minus that length. *)
Theorem select_out_of_range :
  (∀ (h : WindowHandler.t) idx,
     idx < - Z.of_nat (length (WindowHandler.windows h))
     ∨ Z.of_nat (length (WindowHandler.windows h)) ≤ idx →
     WindowHandler.select h idx = ([], Uncaught IndexError))
  ∧ (∀ (h : WorkspaceHandler.t) idx,
       idx < - Z.of_nat (length (WorkspaceHandler.workspaces h))
       ∨ Z.of_nat (length (WorkspaceHandler.workspaces h)) ≤ idx →
       WorkspaceHandler.select h idx = ([], Uncaught IndexError)).
Proof.
  split; intros h idx Hidx.
  - unfold WindowHandler.select. by rewrite py_index_out_of_range.
  - unfold WorkspaceHandler.select. by rewrite py_index_out_of_range.
Qed.

(** C8 (as amended).  [select] at the position of a record [X]: a window
    session starts the one [focus-window] call with the id of [X]; a
    workspace session starts [focus-monitor] with the output of [X] when that
    output is a non-empty text, and then, or alone when the output is absent
    or empty, [focus-workspace] with the idx of [X]. *)
Theorem select_round_trip :
  (∀ (h : WindowHandler.t) (i : nat) X,
     WindowHandler.windows h !! i = Some X →
     WindowHandler.select h (Z.of_nat i)
     = ([Run ["niri"; "msg"; "action"; "focus-window"; "--id"; str (WindowEntryDict.id X)]],
        Returns tt))
  ∧ (∀ (h : WorkspaceHandler.t) (i : nat) X,
       WorkspaceHandler.workspaces h !! i = Some X →
       (∀ output, WorkspaceEntryDict.output X = Some output → output ≠ "" →
          WorkspaceHandler.select h (Z.of_nat i)
          = ([Run ["niri"; "msg"; "action"; "focus-monitor"; output];
              Run ["niri"; "msg"; "action"; "focus-workspace"; str (WorkspaceEntryDict.idx X)]],
             Returns tt))
       ∧ (WorkspaceEntryDict.output X = None ∨ WorkspaceEntryDict.output X = Some "" →
          WorkspaceHandler.select h (Z.of_nat i)
          = ([Run ["niri"; "msg"; "action"; "focus-workspace"; str (WorkspaceEntryDict.idx X)]],
             Returns tt))).
Proof.
  split.
  - intros h i X Hi. unfold WindowHandler.select. by rewrite (py_index_position _ _ _ Hi).
  - intros h i X Hi. unfold WorkspaceHandler.select. rewrite (py_index_position _ _ _ Hi).
    split.
    + intros output Hout Hne%String.eqb_neq. cbn. unfold truthy. by rewrite Hout, Hne.
    + intros Hout. cbn. unfold truthy. by destruct Hout as [-> | ->].
Qed.

End Select.

Lemma select_out_of_range_witness :
  ∃ h, WindowHandler.__init__ niriA true None = Ok h
       ∧ Z.of_nat (length (WindowHandler.windows h)) ≤ 1
       ∧ WindowHandler.select h 1 = ([], Uncaught IndexError)
       ∧ WindowHandler.select h (-2) = ([], Uncaught IndexError).
Proof.
  eexists. split; [reflexivity|]. split; [cbn; lia|].
  split; apply (proj1 select_out_of_range); cbn; lia.
Defined.

(** C7 as stated fails on a negative index: [-1] is outside [0, length)
    and still selects the last entry. *)
Lemma select_out_of_range_counterexample :
  ∃ h, WindowHandler.__init__ niriA true None = Ok h
       ∧ WindowHandler.windows h = [windowA]
       ∧ WindowHandler.select h (-1)
         = ([Run ["niri"; "msg"; "action"; "focus-window"; "--id"; "1"]], Returns tt).
Proof. eexists. repeat split; reflexivity. Qed.

Lemma select_round_trip_witness :
  (∃ h, WindowHandler.__init__ niri_desk true None = Ok h
        ∧ WindowHandler.windows h !! 1%nat = Some browser
        ∧ WindowHandler.select h 1
          = ([Run ["niri"; "msg"; "action"; "focus-window"; "--id"; "11"]], Returns tt))
  ∧ (∃ h, WorkspaceHandler.__init__ niri_desk true = Ok h
          ∧ WorkspaceHandler.workspaces h !! 1%nat = Some side
          ∧ WorkspaceHandler.select h 1
            = ([Run ["niri"; "msg"; "action"; "focus-monitor"; "HDMI-1"];
                Run ["niri"; "msg"; "action"; "focus-workspace"; "1"]], Returns tt)).
Proof.
  split; eexists; (split; [reflexivity|]); (split; [reflexivity|]).
  - apply (proj1 select_round_trip _ 1%nat browser). reflexivity.
  - apply (proj2 select_round_trip _ 1%nat side); [reflexivity..|discriminate].
Defined.

(** C8 as stated fails on a workspace whose output is the empty text: the
    record has an output and no [focus-monitor] call is made. *)
Lemma select_round_trip_counterexample :
  ∃ h, WorkspaceHandler.__init__ niri_nowhere true = Ok h
       ∧ WorkspaceHandler.workspaces h !! 0%nat = Some nowhere
       ∧ WorkspaceEntryDict.output nowhere = Some ""
       ∧ WorkspaceHandler.select h 0
         = ([Run ["niri"; "msg"; "action"; "focus-workspace"; "1"]], Returns tt).
Proof. eexists. repeat split; reflexivity. Qed.

(** ** Building a window session *)

Section WindowSession.

Import WindowEntryDict WindowHandler.

(** C9.  A window session is built only when every candidate's
    [workspace_id] is the id of a workspace record of the snapshot; with a
    candidate whose [workspace_id] is the id of none, [__init__] raises
    [KeyError]. *)
Theorem window_session_needs_workspaces niri sf filters :
  (∀ h, __init__ niri sf filters = Ok h →
     ∀ w, w ∈ candidates (NiriState.windows niri) filters →
       ∃ workspace, workspace ∈ NiriState.workspaces niri
                    ∧ WorkspaceEntryDict.id workspace = workspace_id w)
  ∧ (∀ w, w ∈ candidates (NiriState.windows niri) filters →
       (∀ workspace, workspace ∈ NiriState.workspaces niri →
          WorkspaceEntryDict.id workspace ≠ workspace_id w) →
       __init__ niri sf filters = Raise KeyError).
Proof.
  split.
  - intros h Hinit w Hw.
    destruct (windows_ranked _ _ _ _ Hinit) as (Hperm & Hkeys & _).
    apply init_Ok in Hinit as (_ & Hmap & _).
    rewrite Forall_forall in Hkeys. rewrite <-Hperm in Hw.
    destruct (Hkeys w Hw) as (k & (workspace & Hws & _)%window_sort_key_Ok).
    rewrite Hmap in Hws. apply id_map_Some in Hws. eauto.
  - intros w Hw Hnone%id_map_None.
    unfold __init__, sorted. rewrite (keyed_Raise _ _ KeyError); [done| |].
    + intros x _. unfold sort_key, getitem.
      destruct (_ !! workspace_id x); cbn; eauto.
    + exists w. split; [done|]. unfold sort_key, getitem. by rewrite Hnone.
Qed.

(** C10.  With [select_focused] and a focused window in the snapshot, the
    pre-selected label of a built window session is the label of that window
    under the flags of the session, whether the filters keep the window or
    not; and there is a session whose pre-selected label is none of its
    labels. *)
Theorem preselected_label :
  (∀ niri filters h fw,
     __init__ niri true filters = Ok h →
     NiriState.focused_window niri = Some fw →
     dmenu_selected h = Some (label_of h fw))
  ∧ (∃ niri filters h fw label,
       __init__ niri true filters = Ok h
       ∧ NiriState.focused_window niri = Some fw
       ∧ (fw ∉ candidates (NiriState.windows niri) filters)
       ∧ dmenu_selected h = Some label
       ∧ label ∉ dmenu_entries h).
Proof.
  split.
  - intros niri filters h fw (_ & _ & _ & _ & _ & _ & ->)%init_Ok ->. done.
  - exists niri_desk, (Some [DictKeyMatcher "app_id" (VStr "firefox")]).
    eexists. exists terminal, "* terminal".
    split; [reflexivity|]. split; [reflexivity|]. split; [|split; [reflexivity|]].
    + cbn. rewrite elem_of_cons, elem_of_nil. intros [[=]|[]].
    + cbn. rewrite elem_of_cons, elem_of_nil. intros [[=]|[]].
Qed.

End WindowSession.

Lemma window_session_needs_workspaces_witness :
  (∃ h, WindowHandler.__init__ niriA true None = Ok h
        ∧ ∃ workspace, workspace ∈ NiriState.workspaces niriA
                       ∧ WorkspaceEntryDict.id workspace = WindowEntryDict.workspace_id windowA)
  ∧ WindowHandler.__init__ niri_stray true None = Raise KeyError.
Proof.
  split.
  - eexists. split; [reflexivity|].
    eapply (proj1 (window_session_needs_workspaces niriA true None)); [reflexivity|].
    cbn. apply elem_of_cons; auto.
  - apply (proj2 (window_session_needs_workspaces niri_stray true None) stray).
    + cbn. rewrite !elem_of_cons. auto.
    + intros workspace Hw. cbn in Hw. rewrite elem_of_cons, elem_of_nil in Hw.
      destruct Hw as [->|[]]. discriminate.
Defined.

Lemma preselected_label_witness :
  ∃ h, WindowHandler.__init__ niri_desk true
         (Some [DictKeyMatcher "app_id" (VStr "firefox")]) = Ok h
       ∧ NiriState.focused_window niri_desk = Some terminal
       ∧ WindowHandler.dmenu_selected h = Some (WindowHandler.label_of h terminal)
       ∧ WindowHandler.label_of h terminal = "* terminal"
       ∧ WindowHandler.dmenu_entries h = ["browser"].
Proof.
  eexists. split; [reflexivity|]. split; [reflexivity|].
  split; [|split; reflexivity].
  apply (proj1 preselected_label niri_desk (Some [DictKeyMatcher "app_id" (VStr "firefox")]));
    reflexivity.
Defined.

Lemma ltb_compare s t : String.ltb s t = true ↔ String.compare s t = Lt.
Proof. unfold String.ltb. destruct (String.compare s t); split; congruence. Qed.

Lemma ltb_trans s t u : String.ltb s t = true → String.ltb t u = true → String.ltb s u = true.
Proof.
  rewrite !ltb_compare. intros H1 H2.
  apply OrderedTypeEx.String_as_OT.cmp_lt.
  eapply OrderedTypeEx.String_as_OT.lt_trans; by apply OrderedTypeEx.String_as_OT.cmp_lt.
Qed.

Lemma ltb_irrefl s : String.ltb s s = false.
Proof.
  destruct (String.ltb s s) eqn:H; [|done].
  apply ltb_compare, OrderedTypeEx.String_as_OT.cmp_lt in H.
  by apply OrderedTypeEx.String_as_OT.lt_not_eq in H.
Qed.

Lemma ltb_connex s t : String.ltb s t = false → s ≠ t → String.ltb t s = true.
Proof.
  unfold String.ltb. rewrite (String.compare_antisym t s).
  destruct (String.compare s t) eqn:H; cbn; try done.
  intros _ []. by apply String.compare_eq_iff.
Qed.

Lemma py_eq_refl x : py_eq x x = true.
Proof. destruct x as [|[]| |]; cbn; auto using Z.eqb_refl, String.eqb_refl. Qed.

Lemma py_eq_sym x y : py_eq x y = py_eq y x.
Proof.
  destruct x as [|[]| |], y as [|[]| |]; cbn; auto using Z.eqb_sym, String.eqb_sym.
Qed.

Lemma py_eq_trans x y z : py_eq x y = true → py_eq y z = true → py_eq x z = true.
Proof.
  destruct x as [|a|a|a], y as [|b|b|b], z as [|c|c|c]; cbn; try done;
    rewrite ?Z.eqb_eq, ?String.eqb_eq; congruence.
Qed.

Lemma py_lt_trans x y z :
  py_lt x y = Ok true → py_lt y z = Ok true → py_lt x z = Ok true.
Proof.
  destruct x as [|a|a|a], y as [|b|b|b], z as [|c|c|c]; cbn; try done;
    try (intros [= H1] [= H2]; f_equal; apply Z.ltb_lt; apply Z.ltb_lt in H1, H2; lia).
  intros [= H1] [= H2]. f_equal. by eapply ltb_trans.
Qed.

Lemma py_lt_eq_l x y z : py_eq x y = true → py_lt y z = Ok true → py_lt x z = Ok true.
Proof.
  destruct x as [|a|a|a], y as [|b|b|b], z as [|c|c|c]; cbn; try done;
    rewrite ?Z.eqb_eq, ?String.eqb_eq; congruence.
Qed.

Lemma py_lt_eq_r x y z : py_lt x y = Ok true → py_eq y z = true → py_lt x z = Ok true.
Proof.
  destruct x as [|a|a|a], y as [|b|b|b], z as [|c|c|c]; cbn; try done;
    rewrite ?Z.eqb_eq, ?String.eqb_eq; congruence.
Qed.

Lemma py_lt_not_eq x y : py_lt x y = Ok true → py_eq x y = false.
Proof.
  destruct x as [|a|a|a], y as [|b|b|b]; cbn; try done;
    try (intros [= H]; apply Z.ltb_lt in H; apply Z.eqb_neq; lia).
  intros [= H]. apply String.eqb_neq. intros ->. by rewrite ltb_irrefl in H.
Qed.

Lemma py_lt_asym x y : py_lt x y = Ok true → py_lt y x = Ok false.
Proof.
  destruct x as [|a|a|a], y as [|b|b|b]; cbn; try done;
    try (intros [= H]; f_equal; apply Z.ltb_lt in H; apply Z.ltb_ge; lia).
  intros [= H]. f_equal. destruct (String.ltb b a) eqn:H'; [|done].
  pose proof (ltb_trans _ _ _ H H') as Hc. by rewrite ltb_irrefl in Hc.
Qed.

(** Where [<] answers no for two items that are not [==], it answers yes
    the other way round. *)
Lemma py_lt_connex x y : py_lt x y = Ok false → py_eq x y = false → py_lt y x = Ok true.
Proof.
  destruct x as [|a|a|a], y as [|b|b|b]; cbn; try done;
    try (intros [= H] H'; f_equal; apply Z.ltb_ge in H; apply Z.eqb_neq in H';
         apply Z.ltb_lt; lia).
  intros [= H] H'%String.eqb_neq. f_equal. by apply ltb_connex.
Qed.

#[local] Instance tuple_le_trans : Transitive tuple_le.
Proof.
  intros u; induction u as [|x u IH]; intros [|y v] [|z w]; cbn; try tauto.
  intros [Hxy|[Hxy Huv]] [Hyz|[Hyz Hvw]].
  - left. by eapply py_lt_trans.
  - left. by eapply py_lt_eq_r.
  - left. by eapply py_lt_eq_l.
  - right. split; [by eapply py_eq_trans|by eapply IH].
Qed.

Lemma tuple_le_refl u : tuple_le u u.
Proof. induction u; cbn; auto using py_eq_refl. Qed.

(** [<] on tuples, where it answers, answers as the order says. *)
Lemma tuple_lt_le u v (c : bool) :
  tuple_lt u v = Ok c → if c then tuple_le u v else tuple_le v u.
Proof.
  revert v; induction u as [|x u IH]; intros [|y v]; cbn [tuple_lt tuple_le].
  - by intros [= <-].
  - by intros [= <-].
  - by intros [= <-].
  - destruct (py_eq x y) eqn:Heq.
    + intros H%IH. rewrite py_eq_sym, Heq. destruct c; auto.
    + intros H. destruct c; [auto|]. left. by apply py_lt_connex.
Qed.

(** Tuples that are below each other are [==] item by item. *)
Lemma tuple_le_antisym u v :
  tuple_le u v → tuple_le v u → Forall2 (fun x y => py_eq x y = true) u v.
Proof.
  revert v; induction u as [|x u IH]; intros [|y v]; cbn [tuple_le]; try tauto.
  { intros _ _. constructor. }
  intros [Hxy|[Hxy Huv]] [Hyx|[Hyx Hvu]].
  - apply py_lt_asym in Hxy. congruence.
  - apply py_lt_not_eq in Hxy. rewrite py_eq_sym in Hyx. congruence.
  - apply py_lt_not_eq in Hyx. rewrite py_eq_sym in Hxy. congruence.
  - constructor; auto.
Qed.

Section SortedByKey.

Context {A : Type} (key : A → result (list PyVal)).

(** What [sorted] returns is in the order of the keys. *)
Lemma sorted_by_key (items l : list A) :
  sorted key items = Ok l →
  l ≡ₚ items ∧ StronglySorted (key_rel key tuple_le) l.
Proof.
  intros H. apply (sorted_Ok key tuple_le _) in H as (Hperm & _ & Hsorted); [done|].
  intros x y kx ky c _ _ _ _. apply tuple_lt_le.
Qed.

Lemma sorted_ext (key' : A → result (list PyVal)) (items : list A) :
  (∀ x, key x = key' x) → sorted key items = sorted key' items.
Proof.
  intros Hext. unfold sorted. f_equal.
  induction items as [|x items IH]; cbn; [done|]. by rewrite Hext, IH.
Qed.

(** When no two different items have keys that are [==], the result does
    not depend on the order of the items. *)
Lemma sorted_unique (items1 items2 l1 l2 : list A) :
  items1 ≡ₚ items2 →
  (∀ x y kx ky, x ∈ items1 → y ∈ items1 → key x = Ok kx → key y = Ok ky →
     Forall2 (fun a b => py_eq a b = true) kx ky → x = y) →
  sorted key items1 = Ok l1 → sorted key items2 = Ok l2 → l1 = l2.
Proof.
  intros Hperm Hinj [Hp1 Hs1]%sorted_by_key [Hp2 Hs2]%sorted_by_key.
  apply (StronglySorted_unique_strong (key_rel key tuple_le)); [|done|done|].
  - intros x y Hx Hy (kx & ky & Hkx & Hky & Hle) (ky' & kx' & Hky' & Hkx' & Hle').
    rewrite Hkx in Hkx'; injection Hkx' as <-. rewrite Hky in Hky'; injection Hky' as <-.
    apply (Hinj x y kx ky); [by rewrite <-Hp1|by rewrite Hperm, <-Hp2|done|done|].
    by apply tuple_le_antisym.
  - by rewrite Hp1, Hp2.
Qed.

End SortedByKey.

(** Refutes [tuple_le] of two keys whose fields have been compared. *)
Ltac not_below :=
  let H := fresh "H" in
  intros H;
  repeat match type of H with
         | _ ∨ _ => destruct H as [H|H]
         | _ ∧ _ => let H' := fresh "H" in destruct H as [H' H]; try discriminate H'
         end;
  first [discriminate H | congruence | done].

(** An item whose key is not below the key of another one comes after it. *)
Lemma sorted_position {A} (key : A → result (list PyVal)) (l : list A)
    (i j : nat) (a b : A) ka kb :
  StronglySorted (key_rel key tuple_le) l →
  l !! i = Some a → l !! j = Some b → key a = Ok ka → key b = Ok kb →
  ¬ tuple_le kb ka → (i < j)%nat.
Proof.
  intros Hs Hi Hj Ha Hb Hnle.
  destruct (decide (i < j)%nat) as [|Hge]; [done|]. exfalso. apply Hnle.
  destruct (decide (j = i)) as [->|Hne].
  - rewrite Hi in Hj. injection Hj as <-. rewrite Ha in Hb. injection Hb as <-.
    apply tuple_le_refl.
  - destruct (StronglySorted_lookup _ _ j i b a Hs Hj Hi) as (kb' & ka' & Hb' & Ha' & Hle);
      [lia|]. congruence.
Qed.

Lemma opt_val_eq o o' : py_eq (opt_val o) (opt_val o') = true ↔ o = o'.
Proof.
  destruct o as [s|], o' as [s'|]; cbn; rewrite ?String.eqb_eq; split; congruence.
Qed.

Section WindowOrder.

Import WindowEntryDict WindowHandler.

Lemma window_session_sorted niri sf filters h :
  __init__ niri sf filters = Ok h →
  windows h ≡ₚ candidates (NiriState.windows niri) filters
  ∧ StronglySorted (key_rel (sort_key niri (workspace_id_map h) sf) tuple_le) (windows h).
Proof. intros (_ & _ & Hs & _)%init_Ok. by apply sorted_by_key. Qed.

Lemma window_sort_key_lookup niri m sf w workspace :
  m !! workspace_id w = Some workspace →
  sort_key niri m sf w
  = Ok [VInt (workspace_prio workspace); VInt (window_prio sf w);
        VInt (output_prio niri (WorkspaceEntryDict.output workspace));
        opt_val (WorkspaceEntryDict.output workspace);
        VInt (WorkspaceEntryDict.idx workspace); VInt (id w)].
Proof. intros H. unfold sort_key, getitem. by rewrite H. Qed.

(** X1.  The ranked windows of a built session are in the order of their
    six-field keys: the key of an earlier entry is below the key of a later one. *)
Theorem window_ranking_by_key niri sf filters h (i j : nat) a b :
  __init__ niri sf filters = Ok h →
  windows h !! i = Some a → windows h !! j = Some b → (i < j)%nat →
  ∃ ka kb, sort_key niri (workspace_id_map h) sf a = Ok ka
           ∧ sort_key niri (workspace_id_map h) sf b = Ok kb
           ∧ tuple_le ka kb.
Proof.
  intros [_ Hs]%window_session_sorted Hi Hj Hlt.
  apply (StronglySorted_lookup _ _ _ _ _ _ Hs Hi Hj Hlt).
Qed.

(** X2.  In a built window session, of two candidates in the same
    workspace-priority bucket and of the same focus state, the one whose
    workspace is on the focused output comes before the one whose workspace
    is not. *)
Theorem windows_of_focused_output_first niri sf filters h (i j : nat) a b wsa wsb :
  __init__ niri sf filters = Ok h →
  windows h !! i = Some a → windows h !! j = Some b →
  workspace_id_map h !! workspace_id a = Some wsa →
  workspace_id_map h !! workspace_id b = Some wsb →
  workspace_prio wsa = workspace_prio wsb →
  is_focused a = is_focused b →
  WorkspaceEntryDict.output wsa = NiriState.focused_output niri →
  WorkspaceEntryDict.output wsb ≠ NiriState.focused_output niri →
  (i < j)%nat.
Proof.
  intros [_ Hs]%window_session_sorted Hi Hj Ha Hb Hprio Hfoc Hout Hout'.
  eapply (sorted_position _ _ _ _ _ _ _ _ Hs Hi Hj);
    [by apply window_sort_key_lookup..|].
  pose proof MIN_neg.
  assert (window_prio sf a = window_prio sf b) as -> by (unfold window_prio; by rewrite Hfoc).
  cbn. unfold output_prio.
  rewrite Hprio, !Z.ltb_irrefl, !Z.eqb_refl, Hout.
  rewrite (proj2 (opt_val_eq _ _) eq_refl).
  destruct (py_eq (opt_val (WorkspaceEntryDict.output wsb)) _) eqn:Hb';
    [by apply opt_val_eq in Hb'|].
  destruct (Z.ltb_spec 0 MIN); [lia|]. destruct (Z.eqb_spec 0 MIN); [lia|].
  not_below.
Qed.

(** X3.  In a built window session the candidates of one workspace that
    have the same focus state are listed by ascending window id. *)
Theorem windows_of_a_workspace_by_id niri sf filters h (i j : nat) a b :
  __init__ niri sf filters = Ok h →
  windows h !! i = Some a → windows h !! j = Some b →
  workspace_id a = workspace_id b →
  is_focused a = is_focused b →
  id a < id b →
  (i < j)%nat.
Proof.
  intros Hinit Hi Hj Hws Hfoc Hid.
  destruct (windows_ranked _ _ _ _ Hinit) as (_ & Hkeys & _).
  destruct (window_session_sorted _ _ _ _ Hinit) as [_ Hs].
  rewrite Forall_forall in Hkeys.
  destruct (Hkeys a) as (ka & (wsa & Ha & _)%window_sort_key_Ok);
    [by eapply list_elem_of_lookup_2|].
  eapply (sorted_position _ _ _ _ _ _ _ _ Hs Hi Hj);
    [by apply window_sort_key_lookup|apply window_sort_key_lookup; by rewrite <-Hws|].
  assert (window_prio sf a = window_prio sf b) as -> by (unfold window_prio; by rewrite Hfoc).
  cbn. rewrite !Z.ltb_irrefl, !Z.eqb_refl, py_eq_refl.
  assert (py_lt (opt_val (WorkspaceEntryDict.output wsa))
            (opt_val (WorkspaceEntryDict.output wsa)) ≠ Ok true) as Hirr.
  { intros H%py_lt_not_eq. by rewrite py_eq_refl in H. }
  destruct (Z.ltb_spec (id b) (id a)); [lia|]. destruct (Z.eqb_spec (id b) (id a)); [lia|].
  not_below.
Qed.

Lemma window_sort_key_ext windows1 windows2 workspaces m sf w :
  sort_key (NiriState.mk windows1 workspaces) m sf w
  = sort_key (NiriState.mk windows2 workspaces) m sf w.
Proof. done. Qed.

Lemma filter_Permutation' {B} (f : B → bool) (l1 l2 : list B) :
  l1 ≡ₚ l2 → List.filter f l1 ≡ₚ List.filter f l2.
Proof.
  induction 1 as [|x l1 l2 _ IH|x y l|l1 l2 l3 _ IH1 _ IH2]; cbn.
  - done.
  - destruct (f x); by rewrite IH.
  - destruct (f x), (f y); try done. apply perm_swap.
  - by rewrite IH1.
Qed.

Lemma candidates_Permutation windows1 windows2 filters :
  windows1 ≡ₚ windows2 → candidates windows1 filters ≡ₚ candidates windows2 filters.
Proof.
  intros Hperm. unfold candidates, filter_by_dict.
  destruct filters as [[|rule filters]|]; try done. by apply filter_Permutation'.
Qed.

(** X4.  The ranking does not depend on the order in which the snapshot
    lists the windows: when the windows have different ids, two snapshots
    with the same workspaces and the same windows in another order give the
    same ranked sequence and the same labels. *)
Theorem window_ranking_order_independent windows1 windows2 workspaces sf filters h1 h2 :
  windows1 ≡ₚ windows2 →
  (∀ a b, a ∈ windows1 → b ∈ windows1 → id a = id b → a = b) →
  __init__ (NiriState.mk windows1 workspaces) sf filters = Ok h1 →
  __init__ (NiriState.mk windows2 workspaces) sf filters = Ok h2 →
  windows h1 = windows h2 ∧ dmenu_entries h1 = dmenu_entries h2.
Proof.
  intros Hperm Hids Hinit1 Hinit2.
  pose proof (init_Ok _ _ _ _ Hinit1) as (_ & Hm1 & Hs1 & Hmw1 & (o1 & Ho1 & Hmo1) & He1 & _).
  pose proof (init_Ok _ _ _ _ Hinit2) as (_ & Hm2 & Hs2 & Hmw2 & (o2 & Ho2 & Hmo2) & He2 & _).
  cbn in Hm1, Hm2, Hs1, Hs2.
  assert (workspace_id_map h1 = workspace_id_map h2) as Hm by congruence.
  assert (windows h1 = windows h2) as Hw.
  { rewrite <-Hm in Hs2.
    rewrite (sorted_ext _ (sort_key (NiriState.mk windows1 workspaces) (workspace_id_map h1) sf))
      in Hs2 by done.
    eapply (sorted_unique _ _ _ _ _ (candidates_Permutation _ _ filters Hperm)); [|done..].
    intros x y kx ky Hx Hy (wx & _ & ->)%window_sort_key_Ok (wy & _ & ->)%window_sort_key_Ok Heq.
    assert (∀ w, w ∈ candidates windows1 filters → w ∈ windows1) as Hsub.
    { intros w. unfold candidates, filter_by_dict.
      destruct filters as [[|]|]; try done. rewrite !list_elem_of_In, filter_In. tauto. }
    apply Hids; [by apply Hsub..|].
    do 5 (apply Forall2_cons in Heq as [_ Heq]).
    apply Forall2_cons in Heq as [Hid _]. cbn in Hid. by apply Z.eqb_eq. }
  split; [done|].
  rewrite He1, He2. unfold label_of. rewrite Hw, Hm. f_equal. f_equal.
  - by rewrite Hmw1, Hmw2, Hw.
  - rewrite Hmo1, Hmo2. rewrite Hw, Hm in Ho1. congruence.
Qed.

End WindowOrder.

Lemma window_ranking_by_key_witness :
  ∃ h, WindowHandler.__init__ niri_desk true None = Ok h
       ∧ WindowHandler.windows h = [terminal; browser; editor']
       ∧ ∃ ka kb,
           WindowHandler.sort_key niri_desk (WindowHandler.workspace_id_map h) true terminal
           = Ok ka
           ∧ WindowHandler.sort_key niri_desk (WindowHandler.workspace_id_map h) true browser
             = Ok kb
           ∧ tuple_le ka kb.
Proof.
  eexists. split; [reflexivity|]. split; [reflexivity|].
  eapply (window_ranking_by_key niri_desk true None _ 0 1); [reflexivity..|lia].
Defined.

Lemma windows_of_focused_output_first_witness :
  ∃ h, WindowHandler.__init__ niri_attic false None = Ok h
       ∧ WindowHandler.windows h = [browser; docs; logs]
       ∧ (1 < 2)%nat.
Proof.
  eexists. split; [reflexivity|]. split; [reflexivity|].
  eapply (windows_of_focused_output_first niri_attic false None _ 1 2 docs logs archive attic);
    [reflexivity..|discriminate].
Defined.

Lemma windows_of_a_workspace_by_id_witness :
  ∃ h, WindowHandler.__init__ niri_pair false None = Ok h
       ∧ WindowHandler.windows h = [browser; mailer]
       ∧ (0 < 1)%nat.
Proof.
  eexists. split; [reflexivity|]. split; [reflexivity|].
  eapply (windows_of_a_workspace_by_id niri_pair false None _ 0 1 browser mailer);
    reflexivity.
Defined.

Lemma window_ranking_order_independent_witness :
  ∃ h1 h2,
    WindowHandler.__init__ (NiriState.mk [browser; terminal; editor'] [web; side]) true None
    = Ok h1
    ∧ WindowHandler.__init__ (NiriState.mk [editor'; browser; terminal] [web; side]) true None
      = Ok h2
    ∧ WindowHandler.windows h1 = WindowHandler.windows h2
    ∧ WindowHandler.dmenu_entries h1 = WindowHandler.dmenu_entries h2.
Proof.
  eexists _, _. split; [reflexivity|]. split; [reflexivity|].
  eapply (window_ranking_order_independent
            [browser; terminal; editor'] [editor'; browser; terminal] [web; side] true None);
    [| |reflexivity|reflexivity].
  - change [browser; terminal; editor'] with ([browser; terminal] ++ [editor'])%list.
    apply Permutation_app_comm.
  - intros a b Ha Hb. rewrite !elem_of_cons, elem_of_nil in Ha, Hb.
    destruct Ha as [->|[->|[->|[]]]], Hb as [->|[->|[->|[]]]]; done.
Defined.

Section WorkspaceOrder.

Import WorkspaceEntryDict WorkspaceHandler.

Lemma workspace_session_sorted niri sf h :
  __init__ niri sf = Ok h →
  workspaces h ≡ₚ NiriState.workspaces niri
  ∧ StronglySorted (key_rel (sort_key niri sf) tuple_le) (workspaces h).
Proof. intros (Hs & _)%workspace_init_Ok. by apply sorted_by_key. Qed.

(** X5.  In a built workspace session, [a] comes before [b] when its focus
    priority is lower; or, the focus priorities being equal, when [a] is on
    the focused output and [b] is not; or, focus priority and output being
    equal, when its idx is lower. *)
Theorem workspace_ranking_order niri sf h (i j : nat) a b :
  __init__ niri sf = Ok h →
  workspaces h !! i = Some a → workspaces h !! j = Some b →
  focus_prio sf a < focus_prio sf b
  ∨ (focus_prio sf a = focus_prio sf b
     ∧ output a = NiriState.focused_output niri ∧ output b ≠ NiriState.focused_output niri)
  ∨ (focus_prio sf a = focus_prio sf b ∧ output a = output b ∧ idx a < idx b) →
  (i < j)%nat.
Proof.
  intros [_ Hs]%workspace_session_sorted Hi Hj Hcases.
  eapply (sorted_position _ _ _ _ _ _ _ _ Hs Hi Hj); [done..|].
  cbn. unfold output_prio.
  assert (py_lt (opt_val (output b)) (opt_val (output b)) ≠ Ok true) as Hirr.
  { intros H%py_lt_not_eq. by rewrite py_eq_refl in H. }
  destruct Hcases as [Hlt|[(-> & Ha & Hb)|(-> & -> & Hlt)]].
  - destruct (Z.ltb_spec (focus_prio sf b) (focus_prio sf a)); [lia|].
    destruct (Z.eqb_spec (focus_prio sf b) (focus_prio sf a)); [lia|]. not_below.
  - rewrite Z.ltb_irrefl, Z.eqb_refl, Ha, (proj2 (opt_val_eq _ _) eq_refl).
    destruct (py_eq (opt_val (output b)) _) eqn:Hb'; [by apply opt_val_eq in Hb'|].
    cbn. not_below.
  - rewrite !Z.ltb_irrefl, !Z.eqb_refl, py_eq_refl.
    destruct (py_eq (opt_val (output b)) (opt_val (NiriState.focused_output niri))); cbn;
      destruct (Z.ltb_spec (idx b) (idx a)); try lia;
      destruct (Z.eqb_spec (idx b) (idx a)); try lia; not_below.
Qed.

Lemma find_Permutation {B} (f : B → bool) (l1 l2 : list B) :
  l1 ≡ₚ l2 →
  (∀ a b, a ∈ l1 → b ∈ l1 → f a = true → f b = true → a = b) →
  List.find f l1 = List.find f l2.
Proof.
  intros Hperm Huniq.
  destruct (List.find f l1) as [x|] eqn:H1, (List.find f l2) as [y|] eqn:H2; try done.
  - apply find_some in H1 as [Hx Hfx], H2 as [Hy Hfy].
    apply list_elem_of_In in Hx, Hy. f_equal. apply Huniq; [done|by rewrite Hperm|done..].
  - apply find_some in H1 as [Hx Hfx]. apply list_elem_of_In in Hx. rewrite Hperm in Hx.
    apply list_elem_of_In in Hx. pose proof (find_none _ _ H2 _ Hx). congruence.
  - apply find_some in H2 as [Hy Hfy]. apply list_elem_of_In in Hy. rewrite <-Hperm in Hy.
    apply list_elem_of_In in Hy. pose proof (find_none _ _ H1 _ Hy). congruence.
Qed.

(** X6.  The workspace ranking does not depend on the order in which the
    snapshot lists the workspaces, when at most one workspace is focused and
    no two workspaces share output and idx: the ranked sequence, the labels
    and the pre-selected label are the same. *)
Theorem workspace_ranking_order_independent windows workspaces1 workspaces2 sf h1 h2 :
  workspaces1 ≡ₚ workspaces2 →
  (∀ a b, a ∈ workspaces1 → b ∈ workspaces1 →
     is_focused a = true → is_focused b = true → a = b) →
  (∀ a b, a ∈ workspaces1 → b ∈ workspaces1 →
     output a = output b → idx a = idx b → a = b) →
  __init__ (NiriState.mk windows workspaces1) sf = Ok h1 →
  __init__ (NiriState.mk windows workspaces2) sf = Ok h2 →
  workspaces h1 = workspaces h2
  ∧ dmenu_entries h1 = dmenu_entries h2
  ∧ dmenu_selected h1 = dmenu_selected h2.
Proof.
  intros Hperm Hfoc Hids Hinit1 Hinit2.
  assert (NiriState.focused_workspace (NiriState.mk windows workspaces1)
          = NiriState.focused_workspace (NiriState.mk windows workspaces2)) as Hfw.
  { unfold NiriState.focused_workspace. cbn. by apply find_Permutation. }
  assert (workspaces h1 = workspaces h2) as Hw.
  { pose proof (workspace_init_Ok _ _ _ Hinit1) as (Hs1 & _).
    pose proof (workspace_init_Ok _ _ _ Hinit2) as (Hs2 & _).
    cbn [NiriState.workspaces] in Hs1, Hs2.
    rewrite (sorted_ext _ (sort_key (NiriState.mk windows workspaces1) sf)) in Hs2.
    2:{ intros w. unfold sort_key, output_prio, NiriState.focused_output. by rewrite Hfw. }
    eapply (sorted_unique _ _ _ _ _ Hperm); [|done..].
    intros x y kx ky Hx Hy [= <-] [= <-] Heq.
    do 2 (apply Forall2_cons in Heq as [_ Heq]).
    apply Forall2_cons in Heq as [Hout Heq]. apply Forall2_cons in Heq as [Hidx _].
    apply Hids; [done..|by apply opt_val_eq|by apply Z.eqb_eq]. }
  revert Hinit1 Hinit2. unfold __init__. intros H1 H2.
  apply result_bind_Ok in H1 as (l1 & Hl1 & [= <-]).
  apply result_bind_Ok in H2 as (l2 & Hl2 & [= <-]). cbn in *. subst l2.
  by rewrite Hfw.
Qed.

Lemma workspace_init_selected niri sf h :
  __init__ niri sf = Ok h →
  window_id_map h = id_map WindowEntryDict.id (NiriState.windows niri)
  ∧ dmenu_selected h
    = if sf then _entry_to_dmenu (window_id_map h) (multiple_outputs h)
                   <$> NiriState.focused_workspace niri
      else None.
Proof.
  unfold __init__. intros H. by apply result_bind_Ok in H as (l & _ & [= <-]).
Qed.

(** X7.  A built workspace session lists every workspace of the snapshot
    once; with [select_focused] and a focused workspace, the pre-selected
    label is the label of that workspace and is one of the entries. *)
Theorem workspace_session_entries niri sf h :
  __init__ niri sf = Ok h →
  workspaces h ≡ₚ NiriState.workspaces niri
  ∧ dmenu_entries h
    = map (_entry_to_dmenu (window_id_map h) (multiple_outputs h)) (workspaces h)
  ∧ (∀ fw, sf = true → NiriState.focused_workspace niri = Some fw →
       dmenu_selected h = Some (_entry_to_dmenu (window_id_map h) (multiple_outputs h) fw)
       ∧ ∃ (i : nat), workspaces h !! i = Some fw
                      ∧ dmenu_entries h !! i = dmenu_selected h).
Proof.
  intros Hinit. destruct (workspaces_ranked _ _ _ Hinit) as [Hperm _].
  pose proof (workspace_init_Ok _ _ _ Hinit) as (_ & _ & Hentries).
  split; [done|]. split; [done|].
  intros fw -> Hfw.
  assert (dmenu_selected h
          = Some (_entry_to_dmenu (window_id_map h) (multiple_outputs h) fw)) as Hsel.
  { apply workspace_init_selected in Hinit as [_ ->]. by rewrite Hfw. }
  split; [done|].
  apply focused_workspace_Some in Hfw as [Hin _]. rewrite <-Hperm in Hin.
  apply list_elem_of_lookup in Hin as [i Hi]. exists i. split; [done|].
  by rewrite Hsel, Hentries, list_lookup_fmap, Hi.
Qed.

End WorkspaceOrder.

Lemma workspace_ranking_order_witness :
  ∃ h, WorkspaceHandler.__init__ niri_attic false = Ok h
       ∧ WorkspaceHandler.workspaces h = [side; archive; attic; web]
       ∧ (0 < 1)%nat ∧ (1 < 2)%nat.
Proof.
  eexists. split; [reflexivity|]. split; [reflexivity|]. split.
  - eapply (workspace_ranking_order niri_attic false _ 0 1 side archive); [reflexivity..|].
    left. reflexivity.
  - eapply (workspace_ranking_order niri_attic false _ 1 2 archive attic); [reflexivity..|].
    right. left. split; [reflexivity|]. split; [reflexivity|discriminate].
Defined.

Lemma workspace_ranking_order_independent_witness :
  ∃ h1 h2,
    WorkspaceHandler.__init__ (NiriState.mk [browser] [web; side; archive]) true = Ok h1
    ∧ WorkspaceHandler.__init__ (NiriState.mk [browser] [archive; web; side]) true = Ok h2
    ∧ WorkspaceHandler.workspaces h1 = WorkspaceHandler.workspaces h2
    ∧ WorkspaceHandler.dmenu_entries h1 = WorkspaceHandler.dmenu_entries h2
    ∧ WorkspaceHandler.dmenu_selected h1 = WorkspaceHandler.dmenu_selected h2.
Proof.
  eexists _, _. split; [reflexivity|]. split; [reflexivity|].
  eapply (workspace_ranking_order_independent
            [browser] [web; side; archive] [archive; web; side] true);
    [| | |reflexivity|reflexivity].
  - change [web; side; archive] with ([web; side] ++ [archive])%list.
    apply Permutation_app_comm.
  - intros a b Ha Hb. rewrite !elem_of_cons, elem_of_nil in Ha, Hb.
    destruct Ha as [->|[->|[->|[]]]], Hb as [->|[->|[->|[]]]]; done.
  - intros a b Ha Hb. rewrite !elem_of_cons, elem_of_nil in Ha, Hb.
    destruct Ha as [->|[->|[->|[]]]], Hb as [->|[->|[->|[]]]]; done.
Defined.

Lemma workspace_session_entries_witness :
  ∃ h, WorkspaceHandler.__init__ niri_desk true = Ok h
       ∧ WorkspaceHandler.dmenu_selected h = Some "* @web / DP-1 -- browser"
       ∧ ∃ (i : nat), WorkspaceHandler.workspaces h !! i = Some web
                      ∧ WorkspaceHandler.dmenu_entries h !! i
                        = WorkspaceHandler.dmenu_selected h.
Proof.
  eexists. split; [reflexivity|]. split; [reflexivity|].
  eapply (proj2 (proj2 (workspace_session_entries niri_desk true _ _))); reflexivity.
  Unshelve. reflexivity.
Defined.

(** ** Match rules and the filter *)

Section Filter.

Context {A : Type} (get : A → string → PyVal).

Lemma filter_by_dict_elem (d : list A) (filters : list Matcher) (x : A) :
  x ∈ filter_by_dict get d filters
  ↔ x ∈ d ∧ ∀ rule, rule ∈ filters → matches rule (get x) = true.
Proof.
  unfold filter_by_dict, _filter_item_matches.
  rewrite list_elem_of_In, filter_In, forallb_forall, <-list_elem_of_In.
  by setoid_rewrite <-list_elem_of_In.
Qed.

Lemma filter_by_dict_nil (d : list A) : filter_by_dict get d [] = d.
Proof.
  unfold filter_by_dict. cbn. induction d as [|x d IH]; cbn; [done|]. by rewrite IH.
Qed.

(** X8.  [filter_by_dict] keeps exactly the items that every rule matches,
    in their order, and keeps everything when there is no rule. *)
Theorem filter_by_dict_spec (d : list A) (filters : list Matcher) :
  (∀ x, x ∈ filter_by_dict get d filters
        ↔ x ∈ d ∧ ∀ rule, rule ∈ filters → matches rule (get x) = true)
  ∧ sublist (filter_by_dict get d filters) d
  ∧ filter_by_dict get d [] = d.
Proof.
  split; [apply filter_by_dict_elem|]. split; [|apply filter_by_dict_nil].
  unfold filter_by_dict. induction d as [|x d IH]; cbn; [constructor|].
  destruct (_filter_item_matches filters (get x)); by constructor.
Qed.

Lemma filter_item_matches_app (fs1 fs2 : list Matcher) (item : string → PyVal) :
  _filter_item_matches (fs1 ++ fs2)%list item
  = _filter_item_matches fs1 item && _filter_item_matches fs2 item.
Proof. unfold _filter_item_matches. apply forallb_app. Qed.

(** X9.  Filtering by two lists of rules at once is filtering by the one
    and then by the other, and the order of the rules does not matter. *)
Theorem filter_by_dict_compose (d : list A) (fs1 fs2 : list Matcher) :
  filter_by_dict get d (fs1 ++ fs2)%list = filter_by_dict get (filter_by_dict get d fs1) fs2
  ∧ filter_by_dict get d (fs1 ++ fs2)%list = filter_by_dict get d (fs2 ++ fs1)%list.
Proof.
  unfold filter_by_dict. split.
  - induction d as [|x d IH]; cbn; [done|].
    rewrite filter_item_matches_app.
    destruct (_filter_item_matches fs1 (get x)); cbn; [|done].
    destruct (_filter_item_matches fs2 (get x)); by rewrite IH.
  - apply filter_ext. intros x. rewrite !filter_item_matches_app. apply andb_comm.
Qed.

End Filter.



(** ** The snapshot *)

Lemma find_first {B} (f : B → bool) (l : list B) :
  match List.find f l with
  | Some x => ∃ l1 l2, l = (l1 ++ x :: l2)%list ∧ f x = true ∧ ∀ y, y ∈ l1 → f y = false
  | None => ∀ y, y ∈ l → f y = false
  end.
Proof.
  induction l as [|y l IH]; cbn; [by intros y Hy%elem_of_nil|].
  destruct (f y) eqn:Hy.
  - exists [], l. split; [done|]. split; [done|]. by intros z Hz%elem_of_nil.
  - destruct (List.find f l) as [x|].
    + destruct IH as (l1 & l2 & -> & Hx & Hl1). exists (y :: l1), l2.
      split; [done|]. split; [done|]. intros z [->|Hz]%elem_of_cons; auto.
    + intros z [->|Hz]%elem_of_cons; auto.
Qed.

(** X11.  [focused_window] and [focused_workspace] are the first records of
    their lists that are marked focused, and [None] exactly when no record
    is; [focused_output] is the output of that workspace, [None] without one. *)
Theorem focused_records niri :
  match NiriState.focused_window niri with
  | Some fw => ∃ l1 l2, NiriState.windows niri = (l1 ++ fw :: l2)%list
                        ∧ WindowEntryDict.is_focused fw = true
                        ∧ ∀ w, w ∈ l1 → WindowEntryDict.is_focused w = false
  | None => ∀ w, w ∈ NiriState.windows niri → WindowEntryDict.is_focused w = false
  end
  ∧ match NiriState.focused_workspace niri with
    | Some fw => (∃ l1 l2, NiriState.workspaces niri = (l1 ++ fw :: l2)%list
                           ∧ WorkspaceEntryDict.is_focused fw = true
                           ∧ ∀ w, w ∈ l1 → WorkspaceEntryDict.is_focused w = false)
                 ∧ NiriState.focused_output niri = WorkspaceEntryDict.output fw
    | None => (∀ w, w ∈ NiriState.workspaces niri → WorkspaceEntryDict.is_focused w = false)
              ∧ NiriState.focused_output niri = None
    end.
Proof.
  split; [apply find_first|].
  unfold NiriState.focused_output.
  pose proof (find_first WorkspaceEntryDict.is_focused (NiriState.workspaces niri)) as H.
  unfold NiriState.focused_workspace. by destruct (List.find _ _).
Qed.

(** ** Sessions *)

Section Sessions.

Import WindowEntryDict WindowHandler.

(** X12.  The ranked windows of a built session are the windows of the
    snapshot that every rule matches, each once; the entries are their labels
    in the same order; and with [select_focused], when the focused window of
    the snapshot is such a candidate, the pre-selected label is the entry at
    the position of that window. *)
Theorem window_session_entries niri sf filters h :
  __init__ niri sf (Some filters) = Ok h →
  windows h ≡ₚ filter_by_dict get (NiriState.windows niri) filters
  ∧ (∀ w, w ∈ windows h
          ↔ w ∈ NiriState.windows niri ∧ ∀ rule, rule ∈ filters → matches rule (get w) = true)
  ∧ dmenu_entries h = map (label_of h) (windows h)
  ∧ (∀ fw, sf = true → NiriState.focused_window niri = Some fw → fw ∈ windows h →
       ∃ (i : nat), windows h !! i = Some fw ∧ dmenu_entries h !! i = dmenu_selected h).
Proof.
  intros Hinit. destruct (windows_ranked _ _ _ _ Hinit) as (Hperm & _ & _).
  apply init_Ok in Hinit as (_ & _ & _ & _ & _ & Hentries & Hsel).
  assert (candidates (NiriState.windows niri) (Some filters)
          = filter_by_dict get (NiriState.windows niri) filters) as Hcand.
  { destruct filters; [|done]. symmetry. apply filter_by_dict_nil. }
  rewrite Hcand in Hperm. split; [done|]. split; [|split; [done|]].
  - intros w. rewrite Hperm. apply filter_by_dict_elem.
  - intros fw -> Hfw [i Hi]%list_elem_of_lookup. exists i. split; [done|].
    by rewrite Hsel, Hfw, Hentries, list_lookup_fmap, Hi.
Qed.

End Sessions.

Lemma window_session_entries_witness :
  ∃ h, WindowHandler.__init__ niri_desk true
         (Some [DictKeyMatcher "app_id" (VStr "foot")]) = Ok h
       ∧ WindowHandler.windows h = [terminal]
       ∧ ∃ (i : nat), WindowHandler.windows h !! i = Some terminal
                      ∧ WindowHandler.dmenu_entries h !! i = WindowHandler.dmenu_selected h.
Proof.
  eexists. split; [reflexivity|]. split; [reflexivity|].
  eapply (window_session_entries niri_desk true [DictKeyMatcher "app_id" (VStr "foot")]);
    [reflexivity..|]. cbn. apply elem_of_cons; auto.
Defined.

(** ** When a session is built *)

(** Two keys that start with the same numbers compare unless one has a
    text and the other [None] next. *)
Lemma tuple_lt_same_kind (ns ns' : list Z) (o o' : option string) (ms ms' : list Z) :
  length ns = length ns' → length ms = length ms' →
  (ns = ns' → (o = None ↔ o' = None)) →
  ∃ c : bool,
    tuple_lt (map VInt ns ++ opt_val o :: map VInt ms)%list
             (map VInt ns' ++ opt_val o' :: map VInt ms')%list = Ok c.
Proof.
  assert (∀ ms ms', length ms = length ms' →
            ∃ c : bool, tuple_lt (map VInt ms) (map VInt ms') = Ok c) as Hints.
  { clear. intros ms. induction ms as [|m ms IH]; intros [|m' ms'] [=]; cbn; [eauto|].
    destruct (m =? m'); eauto. }
  revert ns'. induction ns as [|n ns IH]; intros [|n' ns'] [=] Hms Hkind; cbn.
  - destruct o as [s|], o' as [s'|]; cbn.
    + destruct (String.eqb s s'); eauto.
    + destruct (Hkind eq_refl) as [_ H]. by specialize (H eq_refl).
    + destruct (Hkind eq_refl) as [H _]. by specialize (H eq_refl).
    + eauto.
  - destruct (Z.eqb_spec n n') as [->|Hne]; [|eauto].
    apply IH; [done..|]. intros ->. by apply Hkind.
Qed.

(** Two keys that tie up to a text on one side and [None] on the other are
    not in order, whichever way. *)
Lemma tuple_le_mixed (ns : list Z) (s : string) (u v : list PyVal) :
  ¬ tuple_le (map VInt ns ++ VNone :: u)%list (map VInt ns ++ VStr s :: v)%list
  ∧ ¬ tuple_le (map VInt ns ++ VStr s :: v)%list (map VInt ns ++ VNone :: u)%list.
Proof.
  induction ns as [|n ns [IH1 IH2]]; cbn.
  - split; intros [[=]|[[=] _]].
  - rewrite Z.ltb_irrefl. split; intros [[=]|[_ H]]; auto.
Qed.

Section Built.

(** X13.  A workspace session is built exactly when no two workspaces with
    the same focus priority and the same output priority have one an output
    and the other none. *)
Theorem workspace_session_built_iff niri sf :
  (∃ h, WorkspaceHandler.__init__ niri sf = Ok h)
  ↔ ∀ a b, a ∈ NiriState.workspaces niri → b ∈ NiriState.workspaces niri →
      WorkspaceHandler.focus_prio sf a = WorkspaceHandler.focus_prio sf b →
      WorkspaceHandler.output_prio niri a = WorkspaceHandler.output_prio niri b →
      WorkspaceEntryDict.output a = None → WorkspaceEntryDict.output b = None.
Proof.
  split.
  - intros [h [Hperm Hs]%workspace_session_sorted] a b Ha Hb Hf Ho Hnone.
    destruct (WorkspaceEntryDict.output b) as [s|] eqn:Hsome; [exfalso|done].
    rewrite <-Hperm in Ha, Hb.
    apply list_elem_of_lookup in Ha as [i Hi], Hb as [j Hj].
    destruct (tuple_le_mixed
                [WorkspaceHandler.focus_prio sf b; WorkspaceHandler.output_prio niri b] s
                [VInt (WorkspaceEntryDict.idx a)] [VInt (WorkspaceEntryDict.idx b)])
      as [Hab Hba].
    destruct (decide (i = j)) as [->|Hne]; [congruence|].
    destruct (decide (i < j)%nat).
    + destruct (StronglySorted_lookup _ _ i j a b Hs Hi Hj) as (ka & kb & [= <-] & [= <-] & Hle);
        [done|]. apply Hab. by rewrite Hf, Ho, Hnone, Hsome in Hle.
    + destruct (StronglySorted_lookup _ _ j i b a Hs Hj Hi) as (kb & ka & [= <-] & [= <-] & Hle);
        [lia|]. apply Hba. by rewrite Hf, Ho, Hnone, Hsome in Hle.
  - intros Hkind. unfold WorkspaceHandler.__init__.
    destruct (sorted_total (WorkspaceHandler.sort_key niri sf) (NiriState.workspaces niri))
      as [l ->]; [by eauto| |cbn; eauto].
    intros x y kx ky Hx Hy [= <-] [= <-].
    apply (tuple_lt_same_kind
             [WorkspaceHandler.focus_prio sf x; WorkspaceHandler.output_prio niri x]
             [WorkspaceHandler.focus_prio sf y; WorkspaceHandler.output_prio niri y]
             _ _ [WorkspaceEntryDict.idx x] [WorkspaceEntryDict.idx y]); [done..|].
    intros [= Hf Ho]. split; [by apply Hkind|]. by apply Hkind.
Qed.

Import WindowEntryDict WindowHandler.

(** X14.  A window session is built exactly when every candidate has its
    workspace in the snapshot and no two candidates with the same three
    priorities have one a workspace with an output and the other a workspace
    with none. *)
Theorem window_session_built_iff niri sf filters :
  let m := id_map WorkspaceEntryDict.id (NiriState.workspaces niri) in
  (∃ h, __init__ niri sf filters = Ok h)
  ↔ (∀ w, w ∈ candidates (NiriState.windows niri) filters → is_Some (m !! workspace_id w))
    ∧ (∀ a b wsa wsb,
         a ∈ candidates (NiriState.windows niri) filters →
         b ∈ candidates (NiriState.windows niri) filters →
         m !! workspace_id a = Some wsa → m !! workspace_id b = Some wsb →
         workspace_prio wsa = workspace_prio wsb →
         window_prio sf a = window_prio sf b →
         output_prio niri (WorkspaceEntryDict.output wsa)
         = output_prio niri (WorkspaceEntryDict.output wsb) →
         WorkspaceEntryDict.output wsa = None → WorkspaceEntryDict.output wsb = None).
Proof.
  intros m. split.
  - intros [h Hinit].
    destruct (windows_ranked _ _ _ _ Hinit) as (_ & Hkeys & _).
    destruct (window_session_sorted _ _ _ _ Hinit) as [Hperm Hs].
    apply init_Ok in Hinit as (_ & Hm & _). fold m in Hm.
    rewrite Forall_forall in Hkeys. split.
    + intros w Hw. rewrite <-Hperm in Hw. rewrite <-Hm.
      destruct (Hkeys w Hw) as (k & (ws & Hws & _)%window_sort_key_Ok). eauto.
    + intros a b wsa wsb Ha Hb Hwsa Hwsb Hp1 Hp2 Hp3 Hnone.
      destruct (WorkspaceEntryDict.output wsb) as [s|] eqn:Hsome; [exfalso|done].
      rewrite <-Hperm in Ha, Hb. rewrite <-Hm in Hwsa, Hwsb.
      apply list_elem_of_lookup in Ha as [i Hi], Hb as [j Hj].
      destruct (tuple_le_mixed
                  [workspace_prio wsb; window_prio sf b; output_prio niri (Some s)] s
                  [VInt (WorkspaceEntryDict.idx wsa); VInt (id a)]
                  [VInt (WorkspaceEntryDict.idx wsb); VInt (id b)]) as [Hab Hba].
      pose proof (window_sort_key_lookup niri _ sf a wsa Hwsa) as Hka.
      pose proof (window_sort_key_lookup niri _ sf b wsb Hwsb) as Hkb.
      rewrite Hp1, Hp2, Hp3, Hnone in Hka. rewrite Hsome in Hkb.
      destruct (decide (i = j)) as [->|Hne]; [congruence|].
      destruct (decide (i < j)%nat).
      * destruct (StronglySorted_lookup _ _ i j a b Hs Hi Hj) as (ka & kb & Ha' & Hb' & Hle);
          [done|].
        rewrite Hka in Ha'. rewrite Hkb in Hb'. injection Ha' as <-. injection Hb' as <-.
        by apply Hab.
      * destruct (StronglySorted_lookup _ _ j i b a Hs Hj Hi) as (kb & ka & Hb' & Ha' & Hle);
          [lia|].
        rewrite Hka in Ha'. rewrite Hkb in Hb'. injection Ha' as <-. injection Hb' as <-.
        by apply Hba.
  - intros [Hws Hkind]. unfold __init__. fold m.
    destruct (sorted_total (sort_key niri m sf) (candidates (NiriState.windows niri) filters))
      as [l Hl].
    + intros w [ws Hw]%Hws. rewrite (window_sort_key_lookup _ _ _ _ _ Hw). eauto.
    + intros x y kx ky Hx Hy.
      destruct (Hws x Hx) as [wsx Hwx], (Hws y Hy) as [wsy Hwy].
      rewrite (window_sort_key_lookup _ _ _ _ _ Hwx), (window_sort_key_lookup _ _ _ _ _ Hwy).
      intros [= <-] [= <-].
      apply (tuple_lt_same_kind
               [workspace_prio wsx; window_prio sf x;
                output_prio niri (WorkspaceEntryDict.output wsx)]
               [workspace_prio wsy; window_prio sf y;
                output_prio niri (WorkspaceEntryDict.output wsy)]
               _ _ [WorkspaceEntryDict.idx wsx; id x] [WorkspaceEntryDict.idx wsy; id y]);
        [done..|].
      intros [= H1 H2 H3]. split; [by apply (Hkind x y wsx wsy)|].
      by apply (Hkind y x wsy wsx).
    + rewrite Hl. cbn -[mapM].
      assert (l ≡ₚ candidates (NiriState.windows niri) filters) as Hperm
        by (by apply sorted_by_key in Hl as [? _]).
      destruct (mapM_total
                  (fun win => workspace ← getitem m (workspace_id win);
                              mret (WorkspaceEntryDict.output workspace)) l) as [outputs ->];
        [|cbn; eauto].
      intros w Hw. rewrite Hperm in Hw. destruct (Hws w Hw) as [ws Hw'].
      unfold getitem. rewrite Hw'. cbn. eauto.
Qed.

End Built.

Lemma workspace_session_built_iff_witness :
  (∃ h, WorkspaceHandler.__init__ niri_desk true = Ok h)
  ∧ ¬ (∃ h, WorkspaceHandler.__init__ niri_mixed true = Ok h).
Proof.
  split.
  - apply workspace_session_built_iff.
    intros a b Ha Hb _ _. cbn in Ha. rewrite !elem_of_cons, elem_of_nil in Ha.
    destruct Ha as [->|[->|[]]]; discriminate.
  - intros Hbuilt.
    pose proof (proj1 (workspace_session_built_iff niri_mixed true) Hbuilt detached spare)
      as H.
    discriminate H; first [reflexivity | cbn; rewrite !elem_of_cons; auto].
Defined.

Lemma window_session_built_iff_witness :
  (∃ h, WindowHandler.__init__ niri_desk true None = Ok h)
  ∧ ¬ (∃ h, WindowHandler.__init__ niri_stray true None = Ok h).
Proof.
  split.
  - apply (window_session_built_iff niri_desk true None). split.
    + intros w Hw. cbn in Hw. rewrite !elem_of_cons, elem_of_nil in Hw.
      destruct Hw as [->|[->|[->|[]]]]; by eexists.
    + intros a b wsa wsb Ha _ Hwsa _ _ _ _. cbn in Ha. rewrite !elem_of_cons, elem_of_nil in Ha.
      destruct Ha as [->|[->|[->|[]]]]; injection Hwsa as <-; discriminate.
  - intros Hbuilt.
    destruct (proj1 (window_session_built_iff niri_stray true None) Hbuilt) as [Hws _].
    destruct (Hws stray) as [ws Hlook]; [cbn; rewrite !elem_of_cons; auto|].
    discriminate Hlook.
Defined.

(** ** The exceptions of a session *)

Lemma py_lt_Raise x y e : py_lt x y = Raise e → e = TypeError.
Proof. destruct x as [|a|a|a], y as [|b|b|b]; cbn; congruence. Qed.

Lemma tuple_lt_Raise u v e : tuple_lt u v = Raise e → e = TypeError.
Proof.
  revert v; induction u as [|x u IH]; intros [|y v]; cbn; try done.
  destruct (py_eq x y); [apply IH|apply py_lt_Raise].
Qed.

Lemma result_bind_Raise {B C} (m : result B) (f : B → result C) (e : PyExc) :
  m ≫= f = Raise e → m = Raise e ∨ ∃ b, m = Ok b ∧ f b = Raise e.
Proof. destruct m as [b|e']; cbn; [eauto|]. intros [= ->]. auto. Qed.

Lemma sort_keyed_Raise {A} (l : list (list PyVal * A)) e :
  sort_keyed l = Raise e → e = TypeError.
Proof.
  assert (∀ kx (x : A) l, insert_keyed kx x l = Raise e → e = TypeError) as Hins.
  { intros kx x l'. induction l' as [|[ky y] l' IH]; cbn; [done|].
    intros [H|(c & _ & H)]%result_bind_Raise; [by apply tuple_lt_Raise in H|].
    destruct c; [|done]. apply result_bind_Raise in H as [H|(r & _ & [=])]. auto. }
  induction l as [|[k x] l IH]; cbn; [done|].
  intros [H|(s & _ & H)]%result_bind_Raise; eauto.
Qed.

Lemma mapM_Raise {B C} (f : B → result C) (xs : list B) e :
  mapM f xs = Raise e → ∃ x, x ∈ xs ∧ f x = Raise e.
Proof.
  induction xs as [|x xs IH]; cbn; [done|].
  intros [H|(y & _ & H)]%result_bind_Raise.
  - exists x. split; [apply elem_of_cons; auto|done].
  - apply result_bind_Raise in H as [H|(ys & _ & [=])].
    destruct (IH H) as (z & Hz & Hfz). exists z. split; [apply elem_of_cons; auto|done].
Qed.

Lemma sorted_Raise {A} (key : A → result (list PyVal)) (items : list A) e :
  sorted key items = Raise e →
  (∃ x, x ∈ items ∧ key x = Raise e)
  ∨ (e = TypeError ∧ ∀ x, x ∈ items → ∃ k, key x = Ok k).
Proof.
  unfold sorted. intros [H|(keyed & Hkeyed & H)]%result_bind_Raise.
  - left. apply mapM_Raise in H as (x & Hx & H). exists x. split; [done|].
    by apply result_bind_Raise in H as [H|(k & _ & [=])].
  - right. apply result_bind_Raise in H as [H|(s & _ & [=])].
    split; [by apply sort_keyed_Raise in H|].
    destruct (keyed_Ok _ _ _ Hkeyed) as [<- Hall]. rewrite Forall_forall in Hall.
    intros x (p & -> & Hp)%list_elem_of_fmap. eauto.
Qed.

(** X15.  Building a workspace session raises nothing but [TypeError].
    Building a window session raises [KeyError] when a candidate has no
    workspace record, [TypeError] when every candidate has one, and nothing
    else. *)
Theorem session_exceptions niri sf :
  (∀ e, WorkspaceHandler.__init__ niri sf = Raise e → e = TypeError)
  ∧ (∀ filters e,
       WindowHandler.__init__ niri sf filters = Raise e →
       (e = KeyError
        ∧ ∃ w, w ∈ WindowHandler.candidates (NiriState.windows niri) filters
               ∧ id_map WorkspaceEntryDict.id (NiriState.workspaces niri)
                 !! WindowEntryDict.workspace_id w = None)
       ∨ (e = TypeError
          ∧ ∀ w, w ∈ WindowHandler.candidates (NiriState.windows niri) filters →
                 is_Some (id_map WorkspaceEntryDict.id (NiriState.workspaces niri)
                          !! WindowEntryDict.workspace_id w))).
Proof.
  split.
  - intros e. unfold WorkspaceHandler.__init__.
    intros [[(x & _ & [=])|[-> _]]%sorted_Raise|(l & _ & [=])]%result_bind_Raise. done.
  - intros filters e. unfold WindowHandler.__init__.
    set (m := id_map WorkspaceEntryDict.id (NiriState.workspaces niri)).
    intros [H|(l & Hl & H)]%result_bind_Raise.
    + apply sorted_Raise in H as [(w & Hw & Hkey)|[-> Hkeys]].
      * left. unfold WindowHandler.sort_key, getitem in Hkey.
        destruct (m !! WindowEntryDict.workspace_id w) eqn:Hlook; [done|].
        injection Hkey as <-. eauto.
      * right. split; [done|]. intros w [k (ws & Hws & _)%window_sort_key_Ok]%Hkeys. eauto.
    + exfalso. apply result_bind_Raise in H as [H|(outputs & _ & [=])].
      apply mapM_Raise in H as (w & Hw & H).
      apply (sorted_Ok _ (fun _ _ => True)) in Hl as (Hperm & Hkeys & _);
        [|by intros ? ? ?|intros; by destruct c].
      rewrite Forall_forall in Hkeys. rewrite Hperm in Hw.
      destruct (Hkeys w Hw) as [k (ws & Hws & _)%window_sort_key_Ok].
      unfold getitem in H. by rewrite Hws in H.
Qed.

Lemma session_exceptions_witness :
  WorkspaceHandler.__init__ niri_mixed true = Raise TypeError
  ∧ WindowHandler.__init__ niri_stray true None = Raise KeyError.
Proof.
  destruct (session_exceptions niri_mixed true) as [Hws _].
  destruct (session_exceptions niri_stray true) as [_ Hwin].
  split.
  - destruct (WorkspaceHandler.__init__ niri_mixed true) as [h|e] eqn:H; [discriminate H|].
    f_equal. by apply Hws.
  - destruct (WindowHandler.__init__ niri_stray true None) as [h|e] eqn:H; [discriminate H|].
    f_equal. destruct (Hwin None e H) as [[-> _]|[_ Hall]]; [done|].
    destruct (Hall stray) as [ws Hlook]; [cbn; rewrite !elem_of_cons; auto|].
    discriminate Hlook.
Defined.

(** ** Negative indices *)

Lemma py_index_negative {A} (l : list A) (i : Z) :
  - Z.of_nat (length l) ≤ i < 0 → py_index l i = py_index l (i + Z.of_nat (length l)).
Proof.
  intros Hi. unfold py_index. cbv zeta.
  destruct (Z.ltb_spec i 0); [|lia].
  destruct (Z.ltb_spec (i + Z.of_nat (length l)) 0); [lia|].
  by destruct (Z.ltb_spec (i + Z.of_nat (length l)) 0); [lia|].
Qed.

(** X16.  [select] with an index from minus the length up to [-1] does what
    it does with that index plus the length: [-1] selects the last entry. *)
Theorem select_negative_index :
  (∀ (h : WindowHandler.t) idx,
     - Z.of_nat (length (WindowHandler.windows h)) ≤ idx < 0 →
     WindowHandler.select h idx
     = WindowHandler.select h (idx + Z.of_nat (length (WindowHandler.windows h))))
  ∧ (∀ (h : WorkspaceHandler.t) idx,
       - Z.of_nat (length (WorkspaceHandler.workspaces h)) ≤ idx < 0 →
       WorkspaceHandler.select h idx
       = WorkspaceHandler.select h (idx + Z.of_nat (length (WorkspaceHandler.workspaces h)))).
Proof.
  split; intros h idx Hidx.
  - unfold WindowHandler.select. by rewrite py_index_negative.
  - unfold WorkspaceHandler.select. by rewrite py_index_negative.
Qed.

Lemma select_negative_index_witness :
  ∃ h, WorkspaceHandler.__init__ niri_desk true = Ok h
       ∧ WorkspaceHandler.select h (-1) = WorkspaceHandler.select h 1
       ∧ WorkspaceHandler.select h (-1)
         = ([Run ["niri"; "msg"; "action"; "focus-monitor"; "HDMI-1"];
             Run ["niri"; "msg"; "action"; "focus-workspace"; "1"]], Returns tt).
Proof.
  eexists. split; [reflexivity|]. split; [|reflexivity].
  rewrite (proj2 select_negative_index _ (-1)); [reflexivity|cbn; lia].
Defined.

(** ** The run of [main] *)

Section MainRun.

Variable json_loads : string → option Json.
Variable fuzzel : list string → string → Z * string.
Variable int_of_text : string → option Z.

Lemma workspace_rules_cases niri workspace :
  (∃ rules, workspace_rules json_loads niri workspace = ([], Returns rules))
  ∨ workspace_rules json_loads niri workspace
    = ([PrintErr "Invalid match rule for workspace"], Exit 1).
Proof.
  unfold workspace_rules. destruct workspace as [text|]; [|left; eauto].
  destruct (String.eqb text "@focused"); [left; eauto|].
  destruct (String.eqb text "@active"); [left; eauto|].
  destruct (if String.eqb text "@output" then _ else _); [left; eauto|].
  destruct (_parse_arg_as_json_dict json_loads text) as [[|]|]; [right|left|right]; eauto.
Qed.

Lemma workspace_id_rule_cases niri rules filters :
  (∃ filters', workspace_id_rule niri rules filters = ([], Returns filters'))
  ∨ workspace_id_rule niri rules filters
    = ([PrintErr "Could not found workspaces by provided rules"], Exit 1).
Proof.
  unfold workspace_id_rule. destruct rules; [left; eauto|].
  destruct (elements _); [right|left]; eauto.
Qed.


(** What [main] does once the session is built. *)
Lemma main_after_build args fuzzel_args niri handler :
  build_handler json_loads args niri = ([], Returns handler) →
  let cmd := fuzzel_cmd args fuzzel_args handler in
  let input := String.concat newline (dmenu_entries handler) in
  main json_loads fuzzel int_of_text args fuzzel_args niri
  = match fuzzel cmd input with
    | (returncode, out_str) =>
        if returncode =? 0 then
          match int_of_text out_str with
          | Some i => (Popen cmd input :: (select handler i).1, (select handler i).2)
          | None => ([Popen cmd input], Uncaught ValueError)
          end
        else
          (Popen cmd input
           :: (if String.eqb out_str "" then []
               else [Print ("Error: fuzzel returned non-zero status code: " +:+ str returncode);
                     Print ("Fuzzel output:" +:+ newline +:+ out_str);
                     PrintErr ""]),
           Exit 2)
    end.
Proof.
  intros Hbuild cmd input. unfold main. rewrite Hbuild, proc_bind_Returns, proc_bind_emit.
  fold cmd input. destruct (fuzzel cmd input) as [returncode out_str].
  destruct (returncode =? 0); cbn.
  - destruct (int_of_text out_str) as [i|]; cbn; [|done].
    by destruct (select handler i) as [t o].
  - by destruct (String.eqb out_str "").
Qed.

Lemma build_handler_windows args niri h :
  build_handler json_loads args niri = ([], Returns (OfWindows h)) →
  ∃ niri' filters,
    WindowHandler.__init__ niri' (Args.select_focused args) (Some filters) = Ok h.
Proof.
  unfold build_handler. destruct (Args.windows args).
  - destruct (app_id_rules niri (Args.app_id args)) as [niri' filters].
    destruct (window_matching_rules_cases json_loads filters (Args.window_matching args))
      as [[filters1 ->]| ->]; [|done].
    rewrite proc_bind_Returns.
    destruct (workspace_rules_cases niri' (Args.workspace args)) as [[rules ->]| ->]; [|done].
    rewrite proc_bind_Returns.
    destruct (workspace_id_rule_cases niri' rules filters1) as [[filters2 ->]| ->]; [|done].
    rewrite proc_bind_Returns.
    destruct (WindowHandler.__init__ niri' (Args.select_focused args) (Some filters2))
      as [h'|] eqn:Hinit; cbn; [|done].
    intros [= <-]. eauto.
  - destruct (Args.workspaces args); [|done].
    by destruct (WorkspaceHandler.__init__ niri (Args.select_focused args)).
Qed.

(** X17.  When the Picker ends with a non-zero status, [main] exits with
    status 2 after the Picker and starts no focus command; it prints the
    three diagnostic lines exactly when the Picker wrote something. *)
Theorem main_picker_failure args fuzzel_args niri handler returncode out_str :
  build_handler json_loads args niri = ([], Returns handler) →
  fuzzel (fuzzel_cmd args fuzzel_args handler)
    (String.concat newline (dmenu_entries handler)) = (returncode, out_str) →
  returncode ≠ 0 →
  main json_loads fuzzel int_of_text args fuzzel_args niri
  = (Popen (fuzzel_cmd args fuzzel_args handler)
       (String.concat newline (dmenu_entries handler))
     :: (if String.eqb out_str "" then []
         else [Print ("Error: fuzzel returned non-zero status code: " +:+ str returncode);
               Print ("Fuzzel output:" +:+ newline +:+ out_str);
               PrintErr ""]),
     Exit 2).
Proof.
  intros Hbuild Hfuzzel Hne. rewrite (main_after_build _ _ _ _ Hbuild), Hfuzzel.
  by destruct (Z.eqb_spec returncode 0).
Qed.

(** X18.  When the Picker ends with status 0 and prints the position of an
    entry of a window session, [main] starts the Picker and then the one
    [focus-window] command with the id of the window whose label is that
    entry, and returns. *)
Theorem main_focuses_picked_window args fuzzel_args niri h out_str (i : nat) w :
  build_handler json_loads args niri = ([], Returns (OfWindows h)) →
  fuzzel (fuzzel_cmd args fuzzel_args (OfWindows h))
    (String.concat newline (WindowHandler.dmenu_entries h)) = (0, out_str) →
  int_of_text out_str = Some (Z.of_nat i) →
  WindowHandler.windows h !! i = Some w →
  WindowHandler.dmenu_entries h !! i = Some (WindowHandler.label_of h w)
  ∧ main json_loads fuzzel int_of_text args fuzzel_args niri
    = ([Popen (fuzzel_cmd args fuzzel_args (OfWindows h))
          (String.concat newline (WindowHandler.dmenu_entries h));
        Run ["niri"; "msg"; "action"; "focus-window"; "--id"; str (WindowEntryDict.id w)]],
       Returns tt).
Proof.
  intros Hbuild Hfuzzel Hint Hi. split.
  - destruct (build_handler_windows _ _ _ Hbuild) as (niri' & filters & Hinit).
    apply init_Ok in Hinit as (_ & _ & _ & _ & _ & Hentries & _).
    by rewrite Hentries, list_lookup_fmap, Hi.
  - rewrite (main_after_build _ _ _ _ Hbuild). cbn [dmenu_entries].
    rewrite Hfuzzel, Hint. cbn. unfold WindowHandler.select.
    by rewrite (py_index_position _ _ _ Hi).
Qed.


(** X20.  In the window mode a [--window-matching] text that is not a JSON
    object, or is the empty object, ends [main] with one message on the
    error stream and status 1, before the Picker and whatever the other
    arguments. *)
Theorem main_invalid_window_matching args fuzzel_args niri text :
  Args.windows args = true →
  Args.window_matching args = Some text →
  _parse_arg_as_json_dict json_loads text = None
  ∨ _parse_arg_as_json_dict json_loads text = Some [] →
  main json_loads fuzzel int_of_text args fuzzel_args niri
  = ([PrintErr "Invalid match rule for window"], Exit 1).
Proof.
  intros Hwin Htext Hparse. unfold main, build_handler. rewrite Hwin.
  destruct (app_id_rules niri (Args.app_id args)) as [niri' filters].
  unfold window_matching_rules. rewrite Htext. by destruct Hparse as [-> | ->].
Qed.

(** X21.  In the window mode, with a [--window-matching] rule that is absent
    or accepted, a workspace selector that is none of [@focused], [@active]
    and, when there is a focused output, [@output], and that is not a
    non-empty JSON object, ends [main] with one message and status 1 before
    the Picker.  [@output] itself is such a selector when no workspace is
    focused or the focused workspace has no output. *)
Theorem main_invalid_workspace_selector args fuzzel_args niri text filters :
  Args.windows args = true →
  window_matching_rules json_loads (app_id_rules niri (Args.app_id args)).2
    (Args.window_matching args) = ([], Returns filters) →
  Args.workspace args = Some text →
  text ≠ "@focused" → text ≠ "@active" →
  (text = "@output" →
   truthy (NiriState.focused_output (app_id_rules niri (Args.app_id args)).1) = None) →
  _parse_arg_as_json_dict json_loads text = None
  ∨ _parse_arg_as_json_dict json_loads text = Some [] →
  main json_loads fuzzel int_of_text args fuzzel_args niri
  = ([PrintErr "Invalid match rule for workspace"], Exit 1).
Proof.
  intros Hwin Hrules Hsel Hf%String.eqb_neq Ha%String.eqb_neq Hout Hparse.
  unfold main, build_handler. rewrite Hwin.
  destruct (app_id_rules niri (Args.app_id args)) as [niri' filters0]. cbn [fst snd] in *.
  rewrite Hrules, proc_bind_Returns, Hsel. unfold workspace_rules. rewrite Hf, Ha.
  destruct (String.eqb_spec text "@output") as [Heq|_].
  - rewrite (Hout Heq). by destruct Hparse as [-> | ->].
  - by destruct Hparse as [-> | ->].
Qed.

End MainRun.

Lemma main_picker_failure_witness :
  ∃ handler,
    build_handler loads_D plain niri_desk = ([], Returns handler)
    ∧ main loads_D pick_cancel read_index plain [] niri_desk
      = ([Popen (fuzzel_cmd plain [] handler)
            (String.concat newline (dmenu_entries handler))],
         Exit 2).
Proof.
  eexists. split; [reflexivity|].
  eapply (main_picker_failure loads_D pick_cancel read_index plain [] niri_desk _ 1 "");
    [reflexivity|reflexivity|discriminate].
Defined.

Lemma main_focuses_picked_window_witness :
  ∃ h,
    build_handler loads_D plain niri_desk = ([], Returns (OfWindows h))
    ∧ WindowHandler.windows h !! 0%nat = Some browser
    ∧ main loads_D pick_first read_index plain [] niri_desk
      = ([Popen (fuzzel_cmd plain [] (OfWindows h))
            (String.concat newline (WindowHandler.dmenu_entries h));
          Run ["niri"; "msg"; "action"; "focus-window"; "--id"; "11"]],
         Returns tt).
Proof.
  eexists. split; [reflexivity|]. split; [reflexivity|].
  eapply (main_focuses_picked_window loads_D pick_first read_index plain [] niri_desk
            _ "0" 0 browser); reflexivity.
Defined.


Lemma main_invalid_window_matching_witness :
  main loads_empty pick_first read_index (with_window_matching "{}" plain) [] niri_desk
  = ([PrintErr "Invalid match rule for window"], Exit 1).
Proof.
  eapply main_invalid_window_matching; [reflexivity|reflexivity|]. right. reflexivity.
Defined.

Lemma main_invalid_workspace_selector_witness :
  NiriState.focused_output niri_unfocused = None
  ∧ main loads_D pick_first read_index (with_workspace "@output" plain) [] niri_unfocused
    = ([PrintErr "Invalid match rule for workspace"], Exit 1).
Proof.
  split; [reflexivity|].
  eapply main_invalid_workspace_selector;
    [reflexivity|reflexivity|reflexivity|discriminate|discriminate|reflexivity|].
  left. reflexivity.
Defined.

(** ** The rules that [main] makes *)

Section Rules.

Variable json_loads : string → option Json.

Lemma existsb_VInt (n : Z) (ids : list Z) :
  existsb (py_eq (VInt n)) (map VInt ids) = true ↔ n ∈ ids.
Proof.
  rewrite existsb_exists. split.
  - intros (v & (m & <- & Hm)%in_map_iff & Heq). cbn in Heq.
    apply Z.eqb_eq in Heq as ->. by apply list_elem_of_In.
  - intros Hn%list_elem_of_In. exists (VInt n). split; [by apply in_map|].
    cbn. apply Z.eqb_refl.
Qed.

(** X22.  The rule that a workspace selector adds to the window filter
    keeps the windows whose [workspace_id] is the id of a workspace that the
    rules of the selector match. *)
Theorem workspace_selector_filter niri rules filters filters' :
  rules ≠ [] →
  workspace_id_rule niri rules filters = ([], Returns filters') →
  ∀ w : Window,
    _filter_item_matches filters' (WindowEntryDict.get w) = true
    ↔ _filter_item_matches filters (WindowEntryDict.get w) = true
      ∧ ∃ workspace, workspace ∈ NiriState.workspaces niri
          ∧ (∀ rule, rule ∈ rules → matches rule (WorkspaceEntryDict.get workspace) = true)
          ∧ WorkspaceEntryDict.id workspace = WindowEntryDict.workspace_id w.
Proof.
  intros Hrules. unfold workspace_id_rule. destruct rules as [|rule rules]; [done|].
  destruct (elements _) as [|n ids] eqn:Hids; [done|]. intros [= <-] w.
  rewrite filter_item_matches_app, andb_true_iff. apply and_iff_compat_l.
  unfold _filter_item_matches at 1. cbn [forallb matches]. rewrite andb_true_r.
  change (WindowEntryDict.get w "workspace_id") with (VInt (WindowEntryDict.workspace_id w)).
  change (VInt n :: map VInt ids) with (map VInt (n :: ids)).
  rewrite existsb_VInt, <-Hids, elem_of_elements, elem_of_list_to_set.
  rewrite list_elem_of_In, in_map_iff. split.
  - intros (workspace & Hid & [Hin Hmatch]%list_elem_of_In%filter_by_dict_elem). eauto.
  - intros (workspace & Hin & Hmatch & Hid). exists workspace. split; [done|].
    apply list_elem_of_In, filter_by_dict_elem. auto.
Qed.

Lemma filter_item_matches_singleton rule item :
  _filter_item_matches [rule] item = matches rule item.
Proof. unfold _filter_item_matches. cbn. apply andb_true_r. Qed.

(** X23.  The reserved workspace selectors: [@focused] gives the rule that
    matches the focused workspaces, [@active] the rule that matches the
    active ones, and [@output], when the focused workspace has a non-empty
    output, the rule that matches the workspaces on that output. *)
Theorem reserved_workspace_selectors niri :
  (∃ rules, workspace_rules json_loads niri (Some "@focused") = ([], Returns rules)
     ∧ ∀ w, _filter_item_matches rules (WorkspaceEntryDict.get w)
            = WorkspaceEntryDict.is_focused w)
  ∧ (∃ rules, workspace_rules json_loads niri (Some "@active") = ([], Returns rules)
       ∧ ∀ w, _filter_item_matches rules (WorkspaceEntryDict.get w)
              = WorkspaceEntryDict.is_active w)
  ∧ (∀ output, truthy (NiriState.focused_output niri) = Some output →
       ∃ rules, workspace_rules json_loads niri (Some "@output") = ([], Returns rules)
         ∧ ∀ w, _filter_item_matches rules (WorkspaceEntryDict.get w) = true
                ↔ WorkspaceEntryDict.output w = Some output).
Proof.
  split; [|split].
  - eexists. split; [reflexivity|]. intros w. rewrite filter_item_matches_singleton. cbn.
    by destruct (WorkspaceEntryDict.is_focused w).
  - eexists. split; [reflexivity|]. intros w. rewrite filter_item_matches_singleton. cbn.
    by destruct (WorkspaceEntryDict.is_active w).
  - intros output Hout. eexists. split; [unfold workspace_rules; cbn; by rewrite Hout|].
    intros w. rewrite filter_item_matches_singleton. cbn. rewrite orb_false_r.
    change (VStr output) with (opt_val (Some output)).
    change (WorkspaceEntryDict.get w "output") with (opt_val (WorkspaceEntryDict.output w)).
    apply opt_val_eq.
Qed.

(** X24.  The app-id filter: a literal keeps the windows with that
    [app_id]; [@focused], when a window is focused, leaves the snapshot as it
    is and keeps the windows with the [app_id] of the focused window, the
    focused window among them. *)
Theorem app_id_filter niri :
  (∀ app, app ≠ "@focused" →
     ∃ filters, app_id_rules niri (Some app) = (niri, filters)
       ∧ ∀ w, _filter_item_matches filters (WindowEntryDict.get w) = true
              ↔ WindowEntryDict.app_id w = app)
  ∧ (∀ fw, NiriState.focused_window niri = Some fw →
       ∃ filters, app_id_rules niri (Some "@focused") = (niri, filters)
         ∧ (∀ w, _filter_item_matches filters (WindowEntryDict.get w) = true
                 ↔ WindowEntryDict.app_id w = WindowEntryDict.app_id fw)
         ∧ fw ∈ filter_by_dict WindowEntryDict.get (NiriState.windows niri) filters).
Proof.
  split.
  - intros app Happ%String.eqb_neq. eexists. split; [unfold app_id_rules; by rewrite Happ|].
    intros w. rewrite filter_item_matches_singleton. cbn. apply String.eqb_eq.
  - intros fw Hfw. eexists. split; [unfold app_id_rules; cbn; by rewrite Hfw|].
    assert (∀ w, _filter_item_matches
                   [DictKeyMatcher "app_id" (VStr (WindowEntryDict.app_id fw))]
                   (WindowEntryDict.get w) = true
                 ↔ WindowEntryDict.app_id w = WindowEntryDict.app_id fw) as Hmatch.
    { intros w. rewrite filter_item_matches_singleton. cbn. apply String.eqb_eq. }
    split; [done|].
    apply filter_by_dict_elem. split.
    + apply find_some in Hfw as [Hin _]. by apply list_elem_of_In.
    + intros rule ->%list_elem_of_singleton. cbn. apply String.eqb_refl.
Qed.

End Rules.

Lemma workspace_selector_filter_witness :
  ∃ filters',
    workspace_id_rule niri_desk [DictKeyMatcher "is_focused" (VBool true)] []
    = ([], Returns filters')
    ∧ _filter_item_matches filters' (WindowEntryDict.get browser) = true
    ∧ _filter_item_matches filters' (WindowEntryDict.get editor') = false.
Proof.
  eexists. split; [reflexivity|].
  pose proof (workspace_selector_filter niri_desk
                [DictKeyMatcher "is_focused" (VBool true)] [] _ ltac:(discriminate) eq_refl)
    as Hfilter.
  split.
  - apply Hfilter. split; [reflexivity|]. exists web. split; [cbn; apply elem_of_cons; auto|].
    split; [|reflexivity]. by intros rule ->%list_elem_of_singleton.
  - destruct (_filter_item_matches _ (WindowEntryDict.get editor')) eqn:H; [|done].
    apply Hfilter in H as (_ & workspace & Hin & Hmatch & Hid).
    cbn in Hin. rewrite !elem_of_cons, elem_of_nil in Hin.
    destruct Hin as [->|[->|[]]]; [discriminate Hid|].
    specialize (Hmatch _ (list_elem_of_here _ _)). discriminate Hmatch.
Defined.

Lemma reserved_workspace_selectors_witness :
  truthy (NiriState.focused_output niri_desk) = Some "DP-1"
  ∧ ∃ rules,
      workspace_rules loads_D niri_desk (Some "@output") = ([], Returns rules)
      ∧ _filter_item_matches rules (WorkspaceEntryDict.get web) = true.
Proof.
  split; [reflexivity|].
  destruct (proj2 (proj2 (reserved_workspace_selectors loads_D niri_desk)) "DP-1" eq_refl)
    as (rules & Hrules & Hmatch).
  exists rules. split; [done|]. by apply Hmatch.
Defined.

Lemma app_id_filter_witness :
  ∃ filters,
    app_id_rules niri_desk (Some "@focused") = (niri_desk, filters)
    ∧ terminal ∈ filter_by_dict WindowEntryDict.get (NiriState.windows niri_desk) filters.
Proof.
  destruct (proj2 (app_id_filter niri_desk) terminal eq_refl) as (filters & Hrules & _ & Hin).
  eauto.
Defined.

(** ** The command line of the Picker and the workspace labels *)

Section Picker.

Lemma truthy_starred (s : string) : truthy (Some ("* " +:+ s)) = Some ("* " +:+ s).
Proof. done. Qed.

Lemma window_label_starred m mw mo (w : Window) :
  WindowEntryDict.is_focused w = true →
  ∃ s, WindowHandler._entry_to_dmenu m mw mo w = "* " +:+ s.
Proof.
  intros Hfoc. unfold WindowHandler._entry_to_dmenu. rewrite Hfoc.
  destruct mw; [|eauto]. destruct (m !! _); eauto.
Qed.

Lemma workspace_label_starred m mo (w : Workspace) :
  WorkspaceEntryDict.is_focused w = true →
  ∃ s, WorkspaceHandler._entry_to_dmenu m mo w = "* " +:+ s.
Proof.
  intros Hfoc. unfold WorkspaceHandler._entry_to_dmenu. rewrite Hfoc.
  destruct mo; [destruct (truthy _)|]; eauto.
Qed.

Lemma fuzzel_cmd_select args fuzzel_args handler label :
  truthy (dmenu_selected handler) = Some label →
  ∃ pre post, fuzzel_cmd args fuzzel_args handler = (pre ++ ["--select"; label] ++ post)%list.
Proof.
  intros Hsel. unfold fuzzel_cmd. rewrite Hsel.
  destruct fuzzel_args as [|arg rest].
  - eexists _, []. by rewrite app_nil_r.
  - eexists _, rest. by rewrite <-app_assoc.
Qed.

(** X25.  With [select_focused], when the snapshot has a focused window
    (for a window session) or a focused workspace (for a workspace session),
    the command line of the Picker has [--select] followed by the label of
    that window or workspace. *)
Theorem picker_gets_the_preselected_label args fuzzel_args niri :
  (∀ filters h fw,
     WindowHandler.__init__ niri true filters = Ok h →
     NiriState.focused_window niri = Some fw →
     ∃ pre post,
       fuzzel_cmd args fuzzel_args (OfWindows h)
       = (pre ++ ["--select"; WindowHandler.label_of h fw] ++ post)%list)
  ∧ (∀ h fw,
       WorkspaceHandler.__init__ niri true = Ok h →
       NiriState.focused_workspace niri = Some fw →
       ∃ pre post,
         fuzzel_cmd args fuzzel_args (OfWorkspaces h)
         = (pre ++ ["--select";
                    WorkspaceHandler._entry_to_dmenu (WorkspaceHandler.window_id_map h)
                      (WorkspaceHandler.multiple_outputs h) fw] ++ post)%list).
Proof.
  split.
  - intros filters h fw Hinit Hfw. apply fuzzel_cmd_select. cbn [dmenu_selected].
    apply init_Ok in Hinit as (_ & _ & _ & _ & _ & _ & ->). rewrite Hfw.
    cbn [fmap option_fmap option_map].
    apply find_some in Hfw as [_ Hfoc].
    destruct (window_label_starred (WindowHandler.workspace_id_map h)
                (WindowHandler.multiple_workspaces h) (WindowHandler.multiple_outputs h)
                fw Hfoc) as [s Hs].
    unfold WindowHandler.label_of. rewrite Hs. apply truthy_starred.
  - intros h fw Hinit Hfw. apply fuzzel_cmd_select. cbn [dmenu_selected].
    apply workspace_init_selected in Hinit as [_ ->]. rewrite Hfw.
    apply find_some in Hfw as [_ Hfoc].
    destruct (workspace_label_starred (WorkspaceHandler.window_id_map h)
                (WorkspaceHandler.multiple_outputs h) fw Hfoc) as [s Hs].
    cbn [fmap option_fmap option_map]. rewrite Hs. apply truthy_starred.
Qed.

End Picker.

Section WorkspaceLabel.

Import WorkspaceEntryDict WorkspaceHandler.

(** X26.  In a built workspace session [multiple_outputs] says that two
    workspaces of the snapshot differ in their output (an absent output
    being a value), and the label of every entry ends with [ -- ] and the
    title of a window of the snapshot whose id is the [active_window_id] of
    the workspace, or [(empty)] when the snapshot has no such window. *)
Theorem workspace_label_format niri sf h :
  __init__ niri sf = Ok h →
  (multiple_outputs h = true
   ↔ ∃ a b, a ∈ NiriState.workspaces niri ∧ b ∈ NiriState.workspaces niri
            ∧ output a ≠ output b)
  ∧ ∀ (i : nat) w, workspaces h !! i = Some w →
      ∃ front title,
        dmenu_entries h !! i = Some (front +:+ " -- " +:+ title)
        ∧ front
          = (let entry_dmenu := "@" +:+ str_or (name w) (str (idx w)) in
             let entry_dmenu := if is_focused w then "* " +:+ entry_dmenu else entry_dmenu in
             if multiple_outputs h then
               match truthy (output w) with
               | Some output => entry_dmenu +:+ " / " +:+ output
               | None => entry_dmenu
               end
             else entry_dmenu)
        ∧ ((∃ win, win ∈ NiriState.windows niri
                   ∧ WindowEntryDict.id win = active_window_id w
                   ∧ title = WindowEntryDict.title win)
           ∨ ((∀ win, win ∈ NiriState.windows niri →
                 WindowEntryDict.id win ≠ active_window_id w)
              ∧ title = "(empty)")).
Proof.
  intros Hinit. destruct (workspaces_ranked _ _ _ Hinit) as [Hperm _].
  pose proof (workspace_init_Ok _ _ _ Hinit) as (_ & Hmo & Hentries).
  pose proof (workspace_init_selected _ _ _ Hinit) as [Hmap _].
  split.
  - rewrite Hmo, several_distinct. split.
    + intros (o1 & o2 & (a & -> & Ha)%list_elem_of_fmap & (b & -> & Hb)%list_elem_of_fmap & Hne).
      exists a, b. by rewrite <-Hperm.
    + intros (a & b & Ha & Hb & Hne). rewrite <-Hperm in Ha, Hb.
      exists (output a), (output b). auto using list_elem_of_fmap_2.
  - intros i w Hi. rewrite Hentries, list_lookup_fmap, Hi. cbn.
    unfold _entry_to_dmenu. rewrite Hmap.
    destruct (id_map WindowEntryDict.id (NiriState.windows niri) !! active_window_id w)
      as [win|] eqn:Hlook.
    + eexists _, _. split; [reflexivity|]. split; [reflexivity|].
      left. apply id_map_Some in Hlook as [Hin Hid]. eauto.
    + eexists _, _. split; [reflexivity|]. split; [reflexivity|].
      right. split; [|done]. by apply id_map_None.
Qed.

End WorkspaceLabel.

Lemma picker_gets_the_preselected_label_witness :
  ∃ h pre post,
    WindowHandler.__init__ niri_desk true None = Ok h
    ∧ WindowHandler.label_of h terminal = "* terminal (@web / DP-1)"
    ∧ fuzzel_cmd (with_select_focused plain) [] (OfWindows h)
      = (pre ++ ["--select"; WindowHandler.label_of h terminal] ++ post)%list.
Proof.
  eexists.
  destruct (proj1 (picker_gets_the_preselected_label (with_select_focused plain) [] niri_desk)
              None _ terminal eq_refl eq_refl) as (pre & post & Hcmd).
  exists pre, post. split; [reflexivity|]. split; [reflexivity|exact Hcmd].
Defined.

Lemma workspace_label_format_witness :
  ∃ h, WorkspaceHandler.__init__ niri_desk true = Ok h
       ∧ WorkspaceHandler.multiple_outputs h = true
       ∧ ∃ title,
           WorkspaceHandler.dmenu_entries h !! 1%nat
           = Some ("@1 / HDMI-1" +:+ " -- " +:+ title)
           ∧ ((∃ win, win ∈ NiriState.windows niri_desk
                      ∧ WindowEntryDict.id win = WorkspaceEntryDict.active_window_id side
                      ∧ title = WindowEntryDict.title win)
              ∨ ((∀ win, win ∈ NiriState.windows niri_desk →
                    WindowEntryDict.id win ≠ WorkspaceEntryDict.active_window_id side)
                 ∧ title = "(empty)")).
Proof.
  eexists. split; [reflexivity|]. split; [reflexivity|].
  destruct (proj2 (workspace_label_format niri_desk true _ eq_refl) 1%nat side eq_refl)
    as (front & title & Hentry & Hfront & Htitle).
  vm_compute in Hfront. subst front.
  exists title. split; [exact Hentry|exact Htitle].
Defined.

(** ** The command line of the Picker *)

Lemma prefix_match_mode_not_width (arg : string) :
  String.prefix "--match-mode" arg = true →
  String.prefix "--width" arg || String.eqb arg "-w" || String.prefix "-w=" arg = false.
Proof.
  intros H. destruct arg as [|c1 [|c2 [|c3 r]]]; cbn -[ascii_dec] in H;
    repeat match type of H with
           | context [ascii_dec ?a ?b] =>
               is_var b; destruct (ascii_dec a b) as [<-|]; try discriminate H
           end;
    try discriminate H.
  reflexivity.
Qed.

(** X27.  The command line of the Picker starts with [fuzzel --dmenu --index
    --prompt] and the prompt of the command line, or that of the session when
    the former is absent or empty, followed by [: ]; it ends with the
    forwarded arguments but the first.  With nothing forwarded and nothing
    pre-selected the two defaults are all that is added.  A [--match-mode]
    option that is the only forwarded argument takes the default away and is
    not passed on itself. *)
Theorem picker_command_line args fuzzel_args handler :
  (∃ options,
     fuzzel_cmd args fuzzel_args handler
     = (["fuzzel"; "--dmenu"; "--index"; "--prompt";
         str_or (Args.prompt args) (dmenu_prompt handler) +:+ ": "]
        ++ options ++ tail fuzzel_args)%list)
  ∧ (dmenu_selected handler = None →
     fuzzel_cmd args [] handler
     = ["fuzzel"; "--dmenu"; "--index"; "--prompt";
        str_or (Args.prompt args) (dmenu_prompt handler) +:+ ": ";
        "--match-mode=fuzzy"; "--width=" +:+ str (Args.width args)])
  ∧ (∀ first, String.prefix "--match-mode" first = true →
       dmenu_selected handler = None →
       fuzzel_cmd args [first] handler
       = ["fuzzel"; "--dmenu"; "--index"; "--prompt";
          str_or (Args.prompt args) (dmenu_prompt handler) +:+ ": ";
          "--width=" +:+ str (Args.width args)]).
Proof.
  split; [|split].
  - exists ((if negb (existsb (String.prefix "--match-mode") fuzzel_args)
             then ["--match-mode=fuzzy"] else [])
            ++ (if negb (existsb (fun arg => String.prefix "--width" arg || String.eqb arg "-w"
                                             || String.prefix "-w=" arg) fuzzel_args)
                then ["--width=" +:+ str (Args.width args)] else [])
            ++ match truthy (dmenu_selected handler) with
               | Some selected => ["--select"; selected]
               | None => []
               end)%list.
    unfold fuzzel_cmd. cbv zeta.
    destruct (negb (existsb (String.prefix "--match-mode") fuzzel_args));
      destruct (negb (existsb _ fuzzel_args));
      destruct (truthy (dmenu_selected handler)) as [selected|];
      destruct fuzzel_args as [|first rest]; reflexivity.
  - intros Hsel. unfold fuzzel_cmd. by rewrite Hsel.
  - intros first Hmode Hsel. unfold fuzzel_cmd. rewrite Hsel. cbn [existsb].
    rewrite Hmode, (prefix_match_mode_not_width _ Hmode). reflexivity.
Qed.

Lemma picker_command_line_witness :
  ∃ h, WorkspaceHandler.__init__ niri_desk false = Ok h
       ∧ fuzzel_cmd workspace_mode ["--match-mode=exact"] (OfWorkspaces h)
         = ["fuzzel"; "--dmenu"; "--index"; "--prompt"; "Workspace: "; "--width=80"].
Proof.
  eexists. split; [reflexivity|].
  match goal with
  | |- fuzzel_cmd _ _ ?handler = _ =>
      exact (proj2 (proj2 (picker_command_line workspace_mode [] handler))
               "--match-mode=exact" eq_refl eq_refl)
  end.
Defined.

(** ** The modes of [main] *)

Section Modes.

Variable json_loads : string → option Json.
Variable fuzzel : list string → string → Z * string.
Variable int_of_text : string → option Z.

Lemma candidates_Some (windows : list Window) (filters : list Matcher) :
  WindowHandler.candidates windows (Some filters)
  = filter_by_dict WindowEntryDict.get windows filters.
Proof. destruct filters; [|done]. symmetry. apply filter_by_dict_nil. Qed.

(** X28.  In the window mode with a [--window-matching] object and no other
    filter, the session that [main] builds ranks the windows of the snapshot
    whose fields are equal to the values of the object, key by key. *)
Theorem window_matching_session args niri text items h :
  Args.windows args = true →
  Args.app_id args = None → Args.workspace args = None →
  Args.window_matching args = Some text →
  _parse_arg_as_json_dict json_loads text = Some items →
  build_handler json_loads args niri = ([], Returns (OfWindows h)) →
  ∀ w, w ∈ WindowHandler.windows h
       ↔ w ∈ NiriState.windows niri
         ∧ ∀ k v, (k, v) ∈ items → py_eq (WindowEntryDict.get w k) v = true.
Proof.
  intros Hwin Happ Hws Hwm Hparse. unfold build_handler. rewrite Hwin, Happ, Hws, Hwm.
  cbn [app_id_rules window_matching_rules workspace_rules]. rewrite Hparse.
  destruct items as [|item items]; [done|].
  unfold mret, proc_ret. rewrite !proc_bind_Returns.
  cbn [workspace_id_rule app]. unfold mret, proc_ret. rewrite proc_bind_Returns.
  destruct (WindowHandler.__init__ _ _ _) as [h'|] eqn:Hinit; cbn; [|done].
  intros [= <-] w. destruct (windows_ranked _ _ _ _ Hinit) as [Hperm _].
  rewrite Hperm, candidates_Some, filter_by_dict_elem.
  apply and_iff_compat_l. split.
  - intros Hall k v Hkv. apply (Hall (DictKeyMatcher k v)).
    apply list_elem_of_fmap. by exists (k, v).
  - intros Hall rule ((k & v) & -> & Hkv)%list_elem_of_fmap. by apply Hall.
Qed.

(** X29.  The workspace mode never looks at the window filters: two command
    lines for it that differ only in [--app-id], [--window-matching] and
    [--workspace] give the same run, so a text that the window mode rejects
    is not reported. *)
Theorem workspace_mode_ignores_the_filters args args' fuzzel_args niri :
  Args.windows args = false → Args.windows args' = false →
  Args.workspaces args = Args.workspaces args' →
  Args.width args = Args.width args' →
  Args.select_focused args = Args.select_focused args' →
  Args.prompt args = Args.prompt args' →
  main json_loads fuzzel int_of_text args fuzzel_args niri
  = main json_loads fuzzel int_of_text args' fuzzel_args niri.
Proof.
  intros Hwin Hwin' Hws Hwidth Hsf Hprompt.
  unfold main, build_handler, fuzzel_cmd.
  by rewrite Hwin, Hwin', Hws, Hwidth, Hsf, Hprompt.
Qed.






End Modes.

Lemma window_matching_session_witness :
  ∃ h, build_handler loads_foot (with_window_matching selector_foot plain) niri_desk
       = ([], Returns (OfWindows h))
       ∧ (terminal ∈ WindowHandler.windows h) ∧ (browser ∉ WindowHandler.windows h).
Proof.
  eexists. split; [reflexivity|].
  pose proof (window_matching_session loads_foot (with_window_matching selector_foot plain)
                niri_desk selector_foot [("app_id", VStr "foot")] _
                eq_refl eq_refl eq_refl eq_refl eq_refl eq_refl) as Hwindows.
  split.
  - apply Hwindows. split; [cbn; rewrite !elem_of_cons; auto|].
    by intros k v [= -> ->]%list_elem_of_singleton.
  - intros [_ Hall]%Hwindows.
    specialize (Hall "app_id" (VStr "foot") (list_elem_of_here _ _)). discriminate Hall.
Defined.

Lemma workspace_mode_ignores_the_filters_witness :
  main loads_D pick_first read_index (with_window_matching "{}" workspace_mode) [] niri_desk
  = main loads_D pick_first read_index workspace_mode [] niri_desk.
Proof. by apply workspace_mode_ignores_the_filters. Defined.

